(** * service-metrics: the polling cycle, the payload decoder and the scheduler loop

    A shallow embedding of [service-metrics.go].  The program runs an external
    metrics command, decodes its combined output with [encoding/json] into
    [metrics.Metrics], and forwards every metric to dropsonde's [SendValue].

    - Go's [string] and [[]byte] are both modelled as [string] (a sequence of
      8-bit characters), so [string(out)] is the identity.
    - [json.Decoder.Decode] is modelled in the two phases the library has:
      the scanner automaton of [scanner.go] finds (and validates) the first
      JSON value of the input, then the value is stored into the Go target.
      The scanner puts no bound on the nesting of arrays and objects, as in
      the Go releases the program was written for.
    - [float64] is [spec_float] with 53 bits of precision and
      [strconv.ParseFloat] rounds to the nearest float, ties to even.
    - Every call into a library (logging, running the command, decoding,
      forwarding, waiting for the timer, [os.Exit]) is an event of a trace,
      stamped with the time at which the call returns; a small monad threads
      the clock and the trace through the program.
    - The loop of [main] never ends by itself; [schedule n] is the program up
      to the [n]-th round of that loop, and the theorems hold for every [n]. *)

From Stdlib Require Import String Ascii List Bool ZArith NArith Lia.
From Stdlib Require Import Floats.SpecFloat.
Import ListNotations.

Local Open Scope string_scope.
Local Open Scope char_scope.
Local Open Scope list_scope.

(** ** Characters *)

Module Char.

Definition code (c : ascii) : N := N_of_ascii c.

(** The double quote, written by its code. *)
Definition dquote : ascii := "034".
Definition backslash : ascii := "092".

Definition between (lo hi c : ascii) : bool :=
  (code lo <=? code c)%N && (code c <=? code hi)%N.

Definition isDigit (c : ascii) : bool := between "0" "9" c.

Definition isHex (c : ascii) : bool :=
  isDigit c || between "a" "f" c || between "A" "F" c.

(** [isSpace] of scanner.go. *)
Definition isSpace (c : ascii) : bool :=
  (c =? " ") || (c =? "009") || (c =? "013") || (c =? "010").

Definition digitVal (c : ascii) : Z := Z.of_N (code c) - 48.

Definition hexVal (c : ascii) : Z :=
  if isDigit c then Z.of_N (code c) - 48
  else if between "a" "f" c then Z.of_N (code c) - 97 + 10
  else Z.of_N (code c) - 65 + 10.

Definition ofZ (z : Z) : ascii := ascii_of_N (Z.to_N z).

End Char.

(** [snoc s c] is [append(s, c)]. *)
Definition snoc (s : string) (c : ascii) : string := (s ++ String c "")%string.

(** ** JSON values *)

(** A number keeps its literal (Go converts it only once the target type is
    known), a string is kept unquoted, an object keeps its members in input
    order, duplicates included. *)
#[warnings="-register-all"]
Inductive json : Type :=
| JNull
| JBool (b : bool)
| JNumber (lit : string)
| JString (s : string)
| JArray (elems : list json)
| JObject (members : list (string * json)).

(** ** Errors *)

Inductive error : Type :=
| io_EOF
| io_ErrUnexpectedEOF
| SyntaxError (c : ascii) (context : string)
    (* "invalid character 'c' " ++ context *)
| UnmarshalTypeError (value : string) (target : string)
    (* "json: cannot unmarshal " ++ value ++ " into Go value of type " ++ target *)
| ExitError (exitStatus : Z)
    (* *exec.ExitError: the command started and did not exit with 0 *)
| StartError (msg : string)
    (* any other error of CombinedOutput: the command did not run *)
| SendError (msg : string).

Inductive result (A : Type) : Type :=
| Ok (a : A)
| Err (e : error).
Arguments Ok {A} a.
Arguments Err {A} e.

(** ** utf8 and utf16 helpers used by [unquote] *)

Module Utf8.

Import Char.

(** U+FFFD as UTF-8. *)
Definition replacement : string :=
  String (ofZ 239) (String (ofZ 191) (String (ofZ 189) "")).

Definition cont (lo hi : Z) (c : ascii) : bool :=
  (lo <=? Z.of_N (code c))%Z && (Z.of_N (code c) <=? hi)%Z.

(** [validLen s]: the size [utf8.DecodeRune] reports for a well-formed
    sequence at the head of [s] (2, 3 or 4), and 0 where it reports
    [RuneError] with size 1.  The second byte's range follows the
    [acceptRanges] table. *)
Definition validLen (s : string) : nat :=
  match s with
  | String c0 (String c1 r1) =>
      let b0 := Z.of_N (code c0) in
      if ((194 <=? b0) && (b0 <=? 223))%Z then
        if cont 128 191 c1 then 2%nat else 0%nat
      else if ((224 <=? b0) && (b0 <=? 239))%Z then
        match r1 with
        | String c2 _ =>
            let lo := if (b0 =? 224)%Z then 160%Z else 128%Z in
            let hi := if (b0 =? 237)%Z then 159%Z else 191%Z in
            if cont lo hi c1 && cont 128 191 c2 then 3%nat else 0%nat
        | _ => 0%nat
        end
      else if ((240 <=? b0) && (b0 <=? 244))%Z then
        match r1 with
        | String c2 (String c3 _) =>
            let lo := if (b0 =? 240)%Z then 144%Z else 128%Z in
            let hi := if (b0 =? 244)%Z then 143%Z else 191%Z in
            if cont lo hi c1 && cont 128 191 c2 && cont 128 191 c3
            then 4%nat else 0%nat
        | _ => 0%nat
        end
      else 0%nat
  | _ => 0%nat
  end.

(** [utf8.EncodeRune] for a rune that is no surrogate and at most
    U+10FFFF. *)
Definition encodeRune (r : Z) : string :=
  if (r <? 128)%Z then String (ofZ r) ""
  else if (r <? 2048)%Z then
    String (ofZ (192 + r / 64)) (String (ofZ (128 + r mod 64)) "")
  else if (r <? 65536)%Z then
    String (ofZ (224 + r / 4096))
      (String (ofZ (128 + (r / 64) mod 64))
         (String (ofZ (128 + r mod 64)) ""))
  else
    String (ofZ (240 + r / 262144))
      (String (ofZ (128 + (r / 4096) mod 64))
         (String (ofZ (128 + (r / 64) mod 64))
            (String (ofZ (128 + r mod 64)) ""))).

(** [utf16.IsSurrogate]. *)
Definition isSurrogate (r : Z) : bool := ((55296 <=? r) && (r <? 57344))%Z.

(** [utf16.DecodeRune]: [None] stands for U+FFFD. *)
Definition decodeRune16 (r1 r2 : Z) : option Z :=
  if ((55296 <=? r1) && (r1 <? 56320) && (56320 <=? r2) && (r2 <? 57344))%Z
  then Some ((r1 - 55296) * 1024 + (r2 - 56320) + 65536)%Z
  else None.

End Utf8.

(** ** Unquoting a string literal *)

Module Unquote.

Import Char Utf8.

(** [getu4]: the code unit of the four hexadecimal digits of a [\u] escape. *)
Definition getu4 (h1 h2 h3 h4 : ascii) : Z :=
  ((hexVal h1 * 16 + hexVal h2) * 16 + hexVal h3) * 16 + hexVal h4.

(** The character a one-letter escape stands for. *)
Definition escape (e : ascii) : ascii :=
  if e =? "b" then "008"
  else if e =? "f" then "012"
  else if e =? "n" then "010"
  else if e =? "r" then "013"
  else if e =? "t" then "009"
  else e.

(** [unquoteBytes] of decode.go, on the bytes between the quotes of a
    literal the scanner has accepted: escapes are replaced, [\u] escapes are
    written as UTF-8 (a surrogate pair as one rune, a lone surrogate as
    U+FFFD), and every byte that starts no well-formed UTF-8 sequence is
    replaced by U+FFFD.  [copy] counts the continuation bytes of a
    well-formed sequence still to be copied. *)
Fixpoint unquoteBytes (copy : nat) (s : string) {struct s} : string :=
  match s with
  | EmptyString => ""
  | String c r =>
      match copy with
      | S k => String c (unquoteBytes k r)
      | O =>
          if c =? backslash then
            match r with
            | EmptyString => ""
            | String e r1 =>
                if e =? "u" then
                  match r1 with
                  | String h1 (String h2 (String h3 (String h4 r5))) =>
                      let rr := getu4 h1 h2 h3 h4 in
                      if isSurrogate rr then
                        match r5 with
                        | String b (String u (String g1 (String g2
                            (String g3 (String g4 r11))))) =>
                            if (b =? backslash) && (u =? "u") && isHex g1
                               && isHex g2 && isHex g3 && isHex g4 then
                              match decodeRune16 rr (getu4 g1 g2 g3 g4) with
                              | Some dec =>
                                  (encodeRune dec ++ unquoteBytes 0 r11)%string
                              | None =>
                                  (replacement ++ unquoteBytes 0 r5)%string
                              end
                            else (replacement ++ unquoteBytes 0 r5)%string
                        | _ => (replacement ++ unquoteBytes 0 r5)%string
                        end
                      else (encodeRune rr ++ unquoteBytes 0 r5)%string
                  | _ => ""
                  end
                else String (escape e) (unquoteBytes 0 r1)
            end
          else if (code c <? 128)%N then String c (unquoteBytes 0 r)
          else
            match validLen s with
            | O => (replacement ++ unquoteBytes 0 r)%string
            | S k => String c (unquoteBytes k r)
            end
      end
  end.

Definition unquote (raw : string) : string := unquoteBytes 0 raw.

End Unquote.

(** ** The scanner of encoding/json *)

Module Scanner.

Import Char.

(** The entries of the scanner's [parseState] stack, each with what the
    enclosing composite value has collected so far (latest first). *)
Inductive parseState : Type :=
| parseObjectKey (members : list (string * json))
| parseObjectValue (members : list (string * json)) (key : string)
| parseArrayValue (elems : list json).

(** The scanner's [step] functions, each with the text of the token it is
    in the middle of.  [stateEndValue v] holds the value that has just
    ended; [stateLiteral] stands for [stateT], [stateTr], ... [stateNul]. *)
Inductive stepState : Type :=
| stateBeginValueOrEmpty
| stateBeginValue
| stateBeginStringOrEmpty
| stateBeginString
| stateEndValue (v : json)
| stateInString (raw : string)
| stateInStringEsc (raw : string)
| stateInStringEscU (seen : nat) (raw : string)
| stateNeg (lit : string)
| state1 (lit : string)
| state0 (lit : string)
| stateDot (lit : string)
| stateDot0 (lit : string)
| stateE (lit : string)
| stateESign (lit : string)
| stateE0 (lit : string)
| stateLiteral (name : string) (expect : string) (v : json).

Record scanner : Type := mkScanner {
  step : stepState;
  parseStack : list parseState
}.

(** [scanner.reset]. *)
Definition reset : scanner := mkScanner stateBeginValue [].

(** What one byte does to the scanner.  [scanEnd v consumed]: the top-level
    value [v] is complete; [consumed] tells whether the byte belongs to it
    (a closing bracket, brace or quote, the last letter of a literal) or
    follows it (the byte after a number). *)
Inductive opcode : Type :=
| scanContinue (s : scanner)
| scanEnd (v : json) (consumed : bool)
| scanError (e : error).

(** A value ended on the current byte: [popParseState] and the end of a
    string or literal.  With an empty stack the top-level value is done. *)
Definition complete (v : json) (stack : list parseState) : opcode :=
  match stack with
  | [] => scanEnd v true
  | _ => scanContinue (mkScanner (stateEndValue v) stack)
  end.

(** [stateEndValue]: the byte after a value, inside an array or object. *)
Definition endValue (v : json) (stack : list parseState) (c : ascii) : opcode :=
  match stack with
  | [] => scanEnd v false
  | ps :: below =>
      if isSpace c then scanContinue (mkScanner (stateEndValue v) stack)
      else
        match ps with
        | parseObjectKey members =>
            match v with
            | JString key =>
                if c =? ":" then
                  scanContinue
                    (mkScanner stateBeginValue
                       (parseObjectValue members key :: below))
                else scanError (SyntaxError c "after object key")
            | _ => scanError (SyntaxError c "")
            end
        | parseObjectValue members key =>
            if c =? "," then
              scanContinue
                (mkScanner stateBeginString
                   (parseObjectKey ((key, v) :: members) :: below))
            else if c =? "}" then
              complete (JObject (rev ((key, v) :: members))) below
            else scanError (SyntaxError c "after object key:value pair")
        | parseArrayValue elems =>
            if c =? "," then
              scanContinue
                (mkScanner stateBeginValue
                   (parseArrayValue (v :: elems) :: below))
            else if c =? "]" then
              complete (JArray (rev (v :: elems))) below
            else scanError (SyntaxError c "after array element")
        end
  end.

(** [stateBeginValue]. *)
Definition beginValue (stack : list parseState) (c : ascii) : opcode :=
  if isSpace c then scanContinue (mkScanner stateBeginValue stack)
  else if c =? "{" then
    scanContinue (mkScanner stateBeginStringOrEmpty (parseObjectKey [] :: stack))
  else if c =? "[" then
    scanContinue (mkScanner stateBeginValueOrEmpty (parseArrayValue [] :: stack))
  else if c =? dquote then scanContinue (mkScanner (stateInString "") stack)
  else if c =? "-" then scanContinue (mkScanner (stateNeg "-") stack)
  else if c =? "0" then scanContinue (mkScanner (state0 "0") stack)
  else if c =? "t" then
    scanContinue (mkScanner (stateLiteral "true" "rue" (JBool true)) stack)
  else if c =? "f" then
    scanContinue (mkScanner (stateLiteral "false" "alse" (JBool false)) stack)
  else if c =? "n" then
    scanContinue (mkScanner (stateLiteral "null" "ull" JNull) stack)
  else if between "1" "9" c then
    scanContinue (mkScanner (state1 (String c "")) stack)
  else scanError (SyntaxError c "looking for beginning of value").

(** [stateBeginString]. *)
Definition beginString (stack : list parseState) (c : ascii) : opcode :=
  if isSpace c then scanContinue (mkScanner stateBeginString stack)
  else if c =? dquote then scanContinue (mkScanner (stateInString "") stack)
  else scanError (SyntaxError c "looking for beginning of object key string").

(** [state0]: after a leading 0, and after the digits of the integer part. *)
Definition afterInt (lit : string) (stack : list parseState) (c : ascii)
  : opcode :=
  if c =? "." then scanContinue (mkScanner (stateDot (snoc lit c)) stack)
  else if (c =? "e") || (c =? "E") then
    scanContinue (mkScanner (stateE (snoc lit c)) stack)
  else endValue (JNumber lit) stack c.

(** [stateESign]. *)
Definition afterESign (lit : string) (stack : list parseState) (c : ascii)
  : opcode :=
  if isDigit c then scanContinue (mkScanner (stateE0 (snoc lit c)) stack)
  else scanError (SyntaxError c "in exponent of numeric literal").

(** [s.step(s, c)]. *)
Definition stepByte (s : scanner) (c : ascii) : opcode :=
  let stack := parseStack s in
  match step s with
  | stateBeginValueOrEmpty =>
      if isSpace c then scanContinue s
      else if c =? "]" then
        match stack with
        | parseArrayValue elems :: below => complete (JArray (rev elems)) below
        | _ => scanError (SyntaxError c "")
        end
      else beginValue stack c
  | stateBeginValue => beginValue stack c
  | stateBeginStringOrEmpty =>
      if isSpace c then scanContinue s
      else if c =? "}" then
        match stack with
        | parseObjectKey members :: below =>
            complete (JObject (rev members)) below
        | _ => scanError (SyntaxError c "")
        end
      else beginString stack c
  | stateBeginString => beginString stack c
  | stateEndValue v => endValue v stack c
  | stateInString raw =>
      if c =? dquote then complete (JString (Unquote.unquote raw)) stack
      else if c =? backslash then
        scanContinue (mkScanner (stateInStringEsc (snoc raw c)) stack)
      else if (code c <? 32)%N then
        scanError (SyntaxError c "in string literal")
      else scanContinue (mkScanner (stateInString (snoc raw c)) stack)
  | stateInStringEsc raw =>
      if (c =? "b") || (c =? "f") || (c =? "n") || (c =? "r") || (c =? "t")
         || (c =? backslash) || (c =? "/") || (c =? dquote) then
        scanContinue (mkScanner (stateInString (snoc raw c)) stack)
      else if c =? "u" then
        scanContinue (mkScanner (stateInStringEscU 0 (snoc raw c)) stack)
      else scanError (SyntaxError c "in string escape code")
  | stateInStringEscU seen raw =>
      if isHex c then
        match seen with
        | 0 | 1 | 2 =>
            scanContinue (mkScanner (stateInStringEscU (S seen) (snoc raw c)) stack)
        | _ => scanContinue (mkScanner (stateInString (snoc raw c)) stack)
        end
      else scanError (SyntaxError c "in \u hexadecimal character escape")
  | stateNeg lit =>
      if c =? "0" then scanContinue (mkScanner (state0 (snoc lit c)) stack)
      else if between "1" "9" c then
        scanContinue (mkScanner (state1 (snoc lit c)) stack)
      else scanError (SyntaxError c "in numeric literal")
  | state1 lit =>
      if isDigit c then scanContinue (mkScanner (state1 (snoc lit c)) stack)
      else afterInt lit stack c
  | state0 lit => afterInt lit stack c
  | stateDot lit =>
      if isDigit c then scanContinue (mkScanner (stateDot0 (snoc lit c)) stack)
      else scanError (SyntaxError c "after decimal point in numeric literal")
  | stateDot0 lit =>
      if isDigit c then scanContinue (mkScanner (stateDot0 (snoc lit c)) stack)
      else if (c =? "e") || (c =? "E") then
        scanContinue (mkScanner (stateE (snoc lit c)) stack)
      else endValue (JNumber lit) stack c
  | stateE lit =>
      if (c =? "+") || (c =? "-") then
        scanContinue (mkScanner (stateESign (snoc lit c)) stack)
      else afterESign lit stack c
  | stateESign lit => afterESign lit stack c
  | stateE0 lit =>
      if isDigit c then scanContinue (mkScanner (stateE0 (snoc lit c)) stack)
      else endValue (JNumber lit) stack c
  | stateLiteral name expect v =>
      match expect with
      | String e more =>
          if c =? e then
            match more with
            | EmptyString => complete v stack
            | _ => scanContinue (mkScanner (stateLiteral name more v) stack)
            end
          else
            scanError
              (SyntaxError c
                 ("in literal " ++ name ++ " (expecting '" ++ String e "')"))
      | EmptyString => scanError (SyntaxError c "")
      end
  end.

(** What [Decoder.readValue] finds at the head of the buffer. *)
Inductive scanned : Type :=
| Value (v : json) (rest : string)
| Invalid (e : error)
| Incomplete.

(** At the end of the input [readValue] offers the scanner a space: a
    top-level value that the space follows (a number) ends there, anything
    else is cut short. *)
Definition atEOF (s : scanner) : scanned :=
  match stepByte s " " with
  | scanEnd v false => Value v ""
  | _ => Incomplete
  end.

(** The loop of [Decoder.readValue], from scanner state [s]. *)
Fixpoint readValue (s : scanner) (buf : string) : scanned :=
  match buf with
  | EmptyString => atEOF s
  | String c rest =>
      match stepByte s c with
      | scanContinue s' => readValue s' rest
      | scanEnd v true => Value v rest
      | scanEnd v false => Value v buf
      | scanError e => Invalid e
      end
  end.

(** [nonSpace] of stream.go. *)
Fixpoint nonSpace (b : string) : bool :=
  match b with
  | EmptyString => false
  | String c r => if isSpace c then nonSpace r else true
  end.

(** The scanner is never between values with an empty stack: a top-level
    value that ends is reported at once. *)
Definition settled (s : scanner) : Prop :=
  match step s with
  | stateEndValue _ => parseStack s <> []
  | _ => True
  end.

End Scanner.

(** [json_text s] is [s] with every apostrophe replaced by a double quote;
    it is only used to write JSON test inputs down. *)
Fixpoint json_text (s : string) : string :=
  match s with
  | EmptyString => ""
  | String c r => String (if c =? "'" then Char.dquote else c) (json_text r)
  end.

(** ** float64 and strconv.ParseFloat *)

Definition float64 : Type := spec_float.

Module Strconv.

Import Char.

Definition prec : Z := 53.
Definition emax : Z := 1024.

(** Reads a run of decimal digits: the number read so far, how many digits
    were read, and what follows them. *)
Fixpoint readDigits (acc : Z) (count : Z) (s : string) : Z * Z * string :=
  match s with
  | String c r =>
      if isDigit c then readDigits (acc * 10 + digitVal c)%Z (count + 1)%Z r
      else (acc, count, s)
  | EmptyString => (acc, count, s)
  end.

(** [readFloat]: the sign, the decimal mantissa and the decimal exponent of
    a JSON number literal, whose value is [mantissa * 10 ^ exponent]. *)
Definition readFloat (lit : string) : bool * Z * Z :=
  let (neg, s0) :=
    match lit with
    | String c r => if c =? "-" then (true, r) else (false, lit)
    | EmptyString => (false, lit)
    end in
  let '(intPart, _, s1) := readDigits 0 0 s0 in
  let '(mant, fracDigits, s2) :=
    match s1 with
    | String c r =>
        if c =? "." then readDigits intPart 0 r else (intPart, 0%Z, s1)
    | EmptyString => (intPart, 0%Z, s1)
    end in
  let e :=
    match s2 with
    | String c r =>
        if (c =? "e") || (c =? "E") then
          match r with
          | String sg r' =>
              if sg =? "-" then (- fst (fst (readDigits 0 0 r')))%Z
              else if sg =? "+" then fst (fst (readDigits 0 0 r'))
              else fst (fst (readDigits 0 0 r))
          | EmptyString => 0%Z
          end
        else 0%Z
    | EmptyString => 0%Z
    end in
  (neg, mant, (e - fracDigits)%Z).

(** [ParseFloat(lit, 64)]: the float64 nearest to the decimal value (ties to
    even); [None] is [ErrRange], reported when that float is infinite. *)
Definition ParseFloat (lit : string) : option float64 :=
  let '(neg, mant, e) := readFloat lit in
  let f :=
    match mant with
    | Zpos m =>
        if (0 <=? e)%Z then
          binary_normalize prec emax
            ((if neg then Zneg m else Zpos m) * 10 ^ e)%Z 0 false
        else
          SFdiv prec emax (S754_finite neg m 0)
            (S754_finite false (Z.to_pos (10 ^ (- e))) 0)
    | _ => S754_zero neg
    end in
  match f with
  | S754_infinity _ => None
  | _ => Some f
  end.

End Strconv.

(** ** The payload model *)

(** Modelled from the spec: the package [metrics] of this repository, which
    declares the types [Metric] and [Metrics] that [process] decodes into.
    A metric has a string key, a 64-bit floating point value and a string
    unit, under the JSON names key, value and unit; a payload is a slice
    of metrics. *)
Record Metric : Type := mkMetric {
  Key : string;
  Value : float64;
  Unit : string
}.

Definition Metrics : Type := list Metric.

(** ** Storing a JSON value into a Go value (decode.go) *)

Module Unmarshal.

Import Char.

Inductive field : Type := fieldKey | fieldValue | fieldUnit.

(** The struct's fields with their JSON names, in declaration order. *)
Definition fields : list (string * field) :=
  [("key"%string, fieldKey); ("value"%string, fieldValue);
   ("unit"%string, fieldUnit)].

(** [b & caseMask]. *)
Definition upper (c : ascii) : ascii :=
  match c with
  | Ascii b0 b1 b2 b3 b4 _ b6 b7 => Ascii b0 b1 b2 b3 b4 false b6 b7
  end.

(** [equalFoldRight] of fold.go: [t] equals the ASCII name [s] up to the
    case of its letters, where the Kelvin sign (E2 84 AA) also stands for k
    and the long s (C5 BF) for s. *)
Fixpoint equalFoldRight (s t : string) : bool :=
  match s with
  | EmptyString => match t with EmptyString => true | _ => false end
  | String sb s' =>
      match t with
      | EmptyString => false
      | String tb t' =>
          if (code tb <? 128)%N then
            if sb =? tb then equalFoldRight s' t'
            else if between "A" "Z" (upper sb) && (upper sb =? upper tb)
            then equalFoldRight s' t'
            else false
          else if (upper sb =? "S") then
            match t' with
            | String t1 t'' =>
                if (code tb =? 197)%N && (code t1 =? 191)%N
                then equalFoldRight s' t'' else false
            | _ => false
            end
          else if (upper sb =? "K") then
            match t' with
            | String t1 (String t2 t'') =>
                if (code tb =? 226)%N && (code t1 =? 132)%N && (code t2 =? 170)%N
                then equalFoldRight s' t'' else false
            | _ => false
            end
          else false
      end
  end.

(** The field lookup of [decodeState.object]: the field whose name is the
    key exactly, otherwise the first field whose name folds to the key. *)
Fixpoint findField (fs : list (string * field)) (key : string)
    (f : option field) : option field :=
  match fs with
  | [] => f
  | (name, ff) :: more =>
      if String.eqb name key then Some ff
      else
        findField more key
          (match f with
           | None => if equalFoldRight name key then Some ff else None
           | Some _ => f
           end)
  end.

(** The name of a JSON value's kind in an [UnmarshalTypeError]. *)
Definition kind (v : json) : string :=
  match v with
  | JNull => "null"
  | JBool _ => "bool"
  | JNumber _ => "number"
  | JString _ => "string"
  | JArray _ => "array"
  | JObject _ => "object"
  end.

(** Storing into a [string]: a JSON string is stored, [null] leaves the
    target as it is, anything else is a type error. *)
Definition storeString (v : json) (old : string) : result string :=
  match v with
  | JString s => Ok s
  | JNull => Ok old
  | _ => Err (UnmarshalTypeError (kind v) "string")
  end.

(** Storing into a [float64]. *)
Definition storeFloat64 (v : json) (old : float64) : result float64 :=
  match v with
  | JNumber lit =>
      match Strconv.ParseFloat lit with
      | Some f => Ok f
      | None => Err (UnmarshalTypeError ("number " ++ lit) "float64")
      end
  | JNull => Ok old
  | _ => Err (UnmarshalTypeError (kind v) "float64")
  end.

(** One member of a JSON object stored into a [Metric]: a key that names no
    field is skipped. *)
Definition storeMember (m : Metric) (member : string * json) : result Metric :=
  let (key, v) := member in
  match findField fields key None with
  | None => Ok m
  | Some fieldKey =>
      match storeString v (Key m) with
      | Ok s => Ok (mkMetric s (Value m) (Unit m))
      | Err e => Err e
      end
  | Some fieldValue =>
      match storeFloat64 v (Value m) with
      | Ok f => Ok (mkMetric (Key m) f (Unit m))
      | Err e => Err e
      end
  | Some fieldUnit =>
      match storeString v (Unit m) with
      | Ok s => Ok (mkMetric (Key m) (Value m) s)
      | Err e => Err e
      end
  end.

(** [decodeState.object] on a struct: the members are stored in input
    order, so a later duplicate overwrites an earlier one.  The error
    returned is the first one met, which is the one [saveError] keeps. *)
Fixpoint storeMembers (m : Metric) (members : list (string * json))
  : result Metric :=
  match members with
  | [] => Ok m
  | member :: more =>
      match storeMember m member with
      | Ok m' => storeMembers m' more
      | Err e => Err e
      end
  end.

(** The zero value of [Metric], which a fresh slice element holds. *)
Definition zeroMetric : Metric := mkMetric "" (S754_zero false) "".

(** One array element stored into a fresh [Metric]. *)
Definition storeMetric (v : json) : result Metric :=
  match v with
  | JObject members => storeMembers zeroMetric members
  | JNull => Ok zeroMetric
  | _ => Err (UnmarshalTypeError (kind v) "metrics.Metric")
  end.

(** [decodeState.array] on a slice. *)
Fixpoint storeElems (elems : list json) : result Metrics :=
  match elems with
  | [] => Ok []
  | v :: more =>
      match storeMetric v with
      | Ok m =>
          match storeElems more with
          | Ok ms => Ok (m :: ms)
          | Err e => Err e
          end
      | Err e => Err e
      end
  end.

(** [decodeState.unmarshal] into a nil [metrics.Metrics]: [null] leaves the
    slice nil, which ranges like the empty slice. *)
Definition unmarshal (v : json) : result Metrics :=
  match v with
  | JArray elems => storeElems elems
  | JNull => Ok []
  | _ => Err (UnmarshalTypeError (kind v) "metrics.Metrics")
  end.

(** No member of the object names the field. *)
Definition absent (f : field) (members : list (string * json)) : Prop :=
  forall (key : string) (v : json),
    In (key, v) members -> findField fields key None <> Some f.

(** The field's value in a metric. *)
Definition get (f : field) (m : Metric) : string + float64 :=
  match f with
  | fieldKey => inl (Key m)
  | fieldValue => inr (Value m)
  | fieldUnit => inl (Unit m)
  end.

(** Whether a JSON value can be stored into the field. *)
Definition fits (f : field) (v : json) : bool :=
  match f, v with
  | _, JNull => true
  | (fieldKey | fieldUnit), JString _ => true
  | fieldValue, JNumber lit =>
      match Strconv.ParseFloat lit with Some _ => true | None => false end
  | _, _ => false
  end.

End Unmarshal.

(** [json.NewDecoder(bytes.NewReader(out)).Decode(&parsedMetrics)], the first
    call on a new decoder: the first JSON value of [out] is read and stored;
    what follows that value is left in the decoder's buffer. *)
Definition Decode (out : string) : result Metrics :=
  match Scanner.readValue Scanner.reset out with
  | Scanner.Value v _ => Unmarshal.unmarshal v
  | Scanner.Invalid e => Err e
  | Scanner.Incomplete =>
      Err (if Scanner.nonSpace out then io_ErrUnexpectedEOF else io_EOF)
  end.

(** ** The program's world *)

(** The values of a [lager.Data] map. *)
Inductive datum : Type :=
| DString (s : string)
| DFloat (f : float64).

Definition Data : Type := list (string * datum).

(** One entry of a [lager.Data] literal. *)
Definition entry (k : string) (v : datum) : string * datum := (k, v).

(** Every call the program makes into a library is an event of the trace. *)
Inductive event : Type :=
| Info (action : string) (data : Data)                     (* logger.Info *)
| Error (action : string) (err : error) (data : Data)      (* logger.Error *)
| CombinedOutput (name : string) (args : list string)      (* cmd.CombinedOutput *)
| JsonDecode (input : string)                              (* decoder.Decode *)
| SendValue (key : string) (value : float64) (unit : string) (* dmetrics.SendValue *)
| TimeAfter (d : Z)                                        (* <-time.After(d) *)
| OsExit (code : Z).                                       (* os.Exit *)

(** What one run of the metrics command does: it ran and exited with a
    status (-1 when a signal ended it), or it could not be started (or its
    output could not be collected), which [msg] explains. *)
Inductive commandResult : Type :=
| Ran (out : string) (exitStatus : Z)
| NotRun (out : string) (msg : string).

(** The program's surroundings: what the k-th run of the metrics command
    does, what the k-th call of [SendValue] returns, and how long the k-th
    library call takes (for a timer: how long after its duration it fires). *)
Record env : Type := mkEnv {
  command : nat -> commandResult;
  sendResult : nat -> option error;
  elapsed : nat -> N
}.

(** The flags, read once by [main]. *)
Record config : Type := mkConfig {
  metricsCmd : string;
  metricsCmdArgs : list string;
  metricsInterval : Z
}.

Record world : Type := mkWorld {
  now : Z;                      (* the clock *)
  calls : nat;                  (* library calls made so far *)
  runs : nat;                   (* metrics commands run so far *)
  sends : nat                   (* calls of SendValue so far *)
}.

Definition startup : world := mkWorld 0 0 0 0.

(** A computation returns, or [os.Exit] ended the process. *)
Inductive outcome (A : Type) : Type :=
| Returned (a : A)
| Exited (code : Z).
Arguments Returned {A} a.
Arguments Exited {A} code.

(** What running a computation gives: how it ended, the world it left, and
    the library calls it made, in order, each with the time it returned. *)
Record run (A : Type) : Type := mkRun {
  outcomeOf : outcome A;
  final : world;
  trace : list (Z * event)
}.
Arguments mkRun {A} _ _ _.
Arguments outcomeOf {A} _.
Arguments final {A} _.
Arguments trace {A} _.

Definition M (A : Type) : Type := env -> world -> run A.

Definition ret {A : Type} (a : A) : M A := fun _ w => mkRun (Returned a) w [].

Definition bind {A B : Type} (m : M A) (k : A -> M B) : M B :=
  fun E w =>
    match m E w with
    | mkRun (Returned a) w1 t1 =>
        match k a E w1 with
        | mkRun o w2 t2 => mkRun o w2 (t1 ++ t2)
        end
    | mkRun (Exited code) w1 t1 => mkRun (Exited code) w1 t1
    end.

Declare Scope go_scope.
Delimit Scope go_scope with go.
Notation "x <- m ;; k" := (bind m (fun x => k))
  (at level 61, m at next level, right associativity) : go_scope.
Notation "m ;; k" := (bind m (fun _ => k))
  (at level 61, right associativity) : go_scope.
Local Open Scope go_scope.

(** The events of a run, without their times. *)
Definition events {A : Type} (r : run A) : list event := map snd (trace r).

(** A library call that lasts at least [least] and returns [a]: the clock
    advances and the call is recorded with the time at which it returns. *)
Definition call {A : Type} (least : Z) (e : event) (a : A) (w' : world -> world)
  : M A :=
  fun E w =>
    let t := (now w + least + Z.of_N (elapsed E (calls w)))%Z in
    let w1 := w' w in
    mkRun (Returned a) (mkWorld t (S (calls w)) (runs w1) (sends w1)) [(t, e)].

Definition logger_Info (action : string) (data : Data) : M unit :=
  call 0 (Info action data) tt (fun w => w).

Definition logger_Error (action : string) (err : error) (data : Data) : M unit :=
  call 0 (Error action err data) tt (fun w => w).

Definition os_Exit (code : Z) : M unit :=
  fun E w =>
    match call 0 (OsExit code) tt (fun w => w) E w with
    | mkRun _ w1 t1 => mkRun (Exited code) w1 t1
    end.

(** [exec.Command(name, args...).CombinedOutput()]: the error is nil exactly
    when the command ran and exited with status 0, and an [*exec.ExitError]
    when it ran and ended in any other way. *)
Definition cmd_CombinedOutput (name : string) (args : list string)
  : M (string * option error) :=
  fun E w =>
    call 0 (CombinedOutput name args)
      match command E (runs w) with
      | Ran out st => (out, if (st =? 0)%Z then None else Some (ExitError st))
      | NotRun out msg => (out, Some (StartError msg))
      end
      (fun w => mkWorld (now w) (calls w) (S (runs w)) (sends w)) E w.

Definition decoder_Decode (input : string) : M (result Metrics) :=
  call 0 (JsonDecode input) (Decode input) (fun w => w).

Definition dmetrics_SendValue (key : string) (value : float64) (unit : string)
  : M (option error) :=
  fun E w =>
    call 0 (SendValue key value unit) (sendResult E (sends w))
      (fun w => mkWorld (now w) (calls w) (runs w) (S (sends w))) E w.

(** [<-time.After(d)]: the timer fires no earlier than [d] from now. *)
Definition time_After (d : Z) : M unit :=
  call (Z.max 0 d) (TimeAfter d) tt (fun w => w).

(** ** service-metrics.go *)

Section Program.

Variable cfg : config.

Definition action : string := "executing-metrics-cmd".

(** The body of [for _, m := range parsedMetrics]. *)
Fixpoint forward (parsedMetrics : Metrics) : M unit :=
  match parsedMetrics with
  | [] => ret tt
  | m :: more =>
      err <- dmetrics_SendValue (Key m) (Value m) (Unit m) ;;
      match err with
      | Some err =>
          logger_Error "sending metric value failed" err
            [entry "event" (DString "failed");
             entry "metric.key" (DString (Key m));
             entry "metric.value" (DFloat (Value m));
             entry "metric.unit" (DString (Unit m))]
      | None => ret tt
      end ;;
      forward more
  end.

(** [process]. *)
Definition process : M unit :=
  logger_Info action [entry "event" (DString "starting")] ;;
  r <- cmd_CombinedOutput (metricsCmd cfg) (metricsCmdArgs cfg) ;;
  let (out, err) := r in
  match err with
  | Some (ExitError exitStatus) =>
      if (exitStatus =? 10)%Z then
        logger_Info action
          [entry "event" (DString "not yet ready to emit metrics");
           entry "output" (DString out)]
      else
        logger_Error action (ExitError exitStatus)
          [entry "event" (DString "failed"); entry "output" (DString out)] ;;
        os_Exit 0
  | Some err =>
      logger_Error action err
        [entry "event" (DString "failed");
         entry "output"
           (DString
              "no metrics command has been configured, cannot collect metrics")] ;;
      os_Exit 1
  | None =>
      logger_Info action [entry "event" (DString "done")] ;;
      decoded <- decoder_Decode out ;;
      match decoded with
      | Err err =>
          logger_Error "parsing-metrics-output" err
            [entry "event" (DString "failed"); entry "output" (DString out)] ;;
          os_Exit 1
      | Ok parsedMetrics => forward parsedMetrics
      end
  end.

(** [n] rounds of the [for] loop of [main]. *)
Fixpoint loop (n : nat) : M unit :=
  match n with
  | O => ret tt
  | S n' => time_After (metricsInterval cfg) ;; process ;; loop n'
  end.

(** The end of [main]: [process(logger)] and the first [n] rounds of the
    loop that follows it.  The loop has no exit of its own, so the program
    is the limit of [schedule n]. *)
Definition schedule (n : nat) : M unit := process ;; loop n.

End Program.

(** ** Reading a trace *)

(** The arguments of the calls of [SendValue], in order. *)
Fixpoint forwarded (evs : list event) : list (string * float64 * string) :=
  match evs with
  | [] => []
  | SendValue k v u :: more => (k, v, u) :: forwarded more
  | _ :: more => forwarded more
  end.

(** The inputs of the calls of [Decode], in order. *)
Fixpoint decoded (evs : list event) : list string :=
  match evs with
  | [] => []
  | JsonDecode input :: more => input :: decoded more
  | _ :: more => decoded more
  end.

(** The calls of [logger.Error], in order. *)
Fixpoint errorsLogged (evs : list event) : list event :=
  match evs with
  | [] => []
  | Error a e d :: more => Error a e d :: errorsLogged more
  | _ :: more => errorsLogged more
  end.

(** The first three events of a cycle whose command exited with 0. *)
Definition ranFine (cfg : config) (out : string) : list event :=
  [Info action [entry "event" (DString "starting")];
   CombinedOutput (metricsCmd cfg) (metricsCmdArgs cfg);
   Info action [entry "event" (DString "done")];
   JsonDecode out].

(** What the specification says forwarding a payload does, the [k]-th call of
    [SendValue] being the next: every metric is sent, a failure is logged
    and the next metric follows. *)
Fixpoint forwarding (E : env) (k : nat) (ms : Metrics) : list event :=
  match ms with
  | [] => []
  | m :: more =>
      SendValue (Key m) (Value m) (Unit m)
      :: match sendResult E k with
         | Some err =>
             [Error "sending metric value failed" err
                [entry "event" (DString "failed");
                 entry "metric.key" (DString (Key m));
                 entry "metric.value" (DFloat (Value m));
                 entry "metric.unit" (DString (Unit m))]]
         | None => []
         end
      ++ forwarding E (S k) more
  end.

Definition triple (m : Metric) : string * float64 * string :=
  (Key m, Value m, Unit m).

(** ** The clock along a trace *)

(** The first call of every cycle. *)
Definition start : event := Info action [entry "event" (DString "starting")].




(** [ticks lo stamps hi]: the clock, at [lo] before the calls, moves forward
    through their times and is at [hi] after the last of them. *)
Fixpoint ticks (lo : Z) (stamps : list Z) (hi : Z) : Prop :=
  match stamps with
  | [] => hi = lo
  | t :: more => (lo <= t)%Z /\ ticks t more hi
  end.

(** How a process that exited ended: its last call is [os.Exit]. *)
Definition endsWith {A : Type} (r : run A) : Prop :=
  match outcomeOf r with
  | Exited code => exists pre t, trace r = pre ++ [(t, OsExit code)]
  | Returned _ => True
  end.

(** A computation all of whose calls satisfy [P], in every world: the clock
    follows its trace, and it exits only through [os.Exit]. *)
Definition sound {A : Type} (P : event -> Prop) (m : M A) : Prop :=
  forall (E : env) (w : world),
    ticks (now w) (map fst (trace (m E w))) (now (final (m E w))) /\
    Forall (fun x => P (snd x)) (trace (m E w)) /\
    endsWith (m E w).




(** ** Test data *)

(** The payload of the integration test. *)
Definition metricsJson : string :=
  json_text
    "[{'key':'loadMetric','value':4,'unit':'Load'},{'key':'temperatureMetric','value':99,'unit':'Temperature'}]".

(** Surroundings in which every run of the command does [r], nothing fails
    and no call takes time. *)
Definition always (r : commandResult) : env :=
  mkEnv (fun _ => r) (fun _ => None) (fun _ => 0%N).

Definition echo : config := mkConfig "/bin/echo" ["-n"%string; metricsJson] 10.

(** The number 1 as a float64. *)
Definition one : float64 := S754_finite false 4503599627370496 (-52).

Definition four : float64 := S754_finite false 4503599627370496 (-50).
Definition ninetyNine : float64 := S754_finite false 6966505673588736 (-46).

(** The two records of [metricsJson] as the scanner reads them. *)
Definition metricsElems : list json :=
  [JObject
     [("key"%string, JString "loadMetric"); ("value"%string, JNumber "4");
      ("unit"%string, JString "Load")];
   JObject
     [("key"%string, JString "temperatureMetric");
      ("value"%string, JNumber "99"); ("unit"%string, JString "Temperature")]].

Definition metricsParsed : Metrics :=
  [mkMetric "loadMetric" four "Load";
   mkMetric "temperatureMetric" ninetyNine "Temperature"].

(** [/bin/bash -c 'echo -n failed to obtain metrics; exit N']. *)
Definition bash (script : string) : config :=
  mkConfig "/bin/bash" ["-c"%string; script] 10.

Definition missing : config :=
  mkConfig "/your/system/wont/have/this/yet" [] 10.

(** Surroundings in which the first call of [SendValue] fails. *)
Definition firstSendFails : env :=
  mkEnv (fun _ => Ran metricsJson 0)
    (fun k => match k with
              | O => Some (SendError "connection refused")
              | S _ => None
              end)
    (fun _ => 0%N).

(** A record with a value and a unit and no key. *)
Definition keyless : string := json_text "[{'value':1,'unit':'u'}]".

(** Three records: one with a key, one whose key is the empty string, one
    whose key is given twice, the second time in capitals. *)
Definition keyed : string :=
  json_text
    "[{'key':'a','value':1,'unit':'u'},{'key':'','value':1,'unit':'u'},{'key':'b','KEY':'c'}]".

Definition keyedElems : list json :=
  [JObject
     [("key"%string, JString "a"); ("value"%string, JNumber "1");
      ("unit"%string, JString "u")];
   JObject
     [("key"%string, JString ""); ("value"%string, JNumber "1");
      ("unit"%string, JString "u")];
   JObject [("key"%string, JString "b"); ("KEY"%string, JString "c")]].

Definition keyedParsed : Metrics :=
  [mkMetric "a" one "u"; mkMetric "" one "u";
   mkMetric "c" (S754_zero false) ""].

(** Surroundings in which the command prints the payload twice and then
    exits with status 1. *)
Definition thirdRunFails : env :=
  mkEnv (fun k => if (k <? 2)%nat then Ran metricsJson 0
                  else Ran "failed to obtain metrics" 1)
    (fun _ => None) (fun _ => 0%N).

(** ** The command line *)

Module Flag.

(** The program's global variables, which the flags set.  A duration is a
    number of nanoseconds. *)
Record vars : Type := mkVars {
  origin : string;
  metronAddr : string;
  metricsInterval : Z;
  metricsCmd : string;
  metricsCmdArgs : list string;
  debug : bool
}.

(** The defaults [main] declares: empty strings, one minute, no arguments,
    no debug logging. *)
Definition defaults : vars := mkVars "" "" 60000000000 "" [] false.

(** The method [Set] of [multiFlag]: the value is appended to [metricsCmdArgs], a nil slice
    being replaced by an empty one first; the error is always nil. *)
Definition multiFlag_Set (value : string) (args : list string)
  : list string * option error :=
  let args := match args with [] => [] | _ => args end in
  (args ++ [value], None).

(** The flags [main] declares. *)
Inductive flagVar : Type :=
| fOrigin | fMetronAddr | fMetricsCmd | fMetricsCmdArg | fMetricsInterval
| fDebug.

(** The flag set's [formal] map. *)
Definition formal (name : string) : option flagVar :=
  if String.eqb name "origin" then Some fOrigin
  else if String.eqb name "metron-addr" then Some fMetronAddr
  else if String.eqb name "metrics-cmd" then Some fMetricsCmd
  else if String.eqb name "metrics-cmd-arg" then Some fMetricsCmdArg
  else if String.eqb name "metrics-interval" then Some fMetricsInterval
  else if String.eqb name "debug" then Some fDebug
  else None.

(** [strconv.ParseBool]. *)
Definition ParseBool (s : string) : option bool :=
  if String.eqb s "1" || String.eqb s "t" || String.eqb s "T"
     || String.eqb s "TRUE" || String.eqb s "true" || String.eqb s "True"
  then Some true
  else if String.eqb s "0" || String.eqb s "f" || String.eqb s "F"
          || String.eqb s "FALSE" || String.eqb s "false"
          || String.eqb s "False"
  then Some false
  else None.

(** Why [FlagSet.Parse] fails. *)
Inductive parseError : Type :=
| BadSyntax (arg : string)               (* bad flag syntax: arg *)
| NotDefined (name : string)             (* flag provided but not defined: -name *)
| Help                                   (* -h or -help, not declared: flag.ErrHelp *)
| InvalidBoolean (value name : string)   (* invalid boolean value "value" for -name *)
| NeedsArgument (name : string)          (* flag needs an argument: -name *)
| InvalidValue (value name : string).    (* invalid value "value" for flag -name *)

Inductive parsed : Type :=
| Parsed (v : vars) (rest : list string)
| Failed (e : parseError).

(** How [parseOne] reads one argument. *)
Inductive argument : Type :=
| NonFlag
| Terminator
| Bad
| Named (name : string) (value : option string).

(** The name up to the first equals sign, and the value after it. *)
Fixpoint splitAtEquals (s : string) : string * option string :=
  match s with
  | EmptyString => (EmptyString, None)
  | String c r =>
      if c =? "=" then (EmptyString, Some r)
      else let (n, v) := splitAtEquals r in (String c n, v)
  end.

(** The first half of [parseOne]: an argument shorter than two bytes or not
    beginning with a minus is no flag; [--] ends the flags; one or two
    minuses are dropped; the name may begin with neither a minus nor an
    equals sign, and an equals sign after its first byte begins the value. *)
Definition classify (s : string) : argument :=
  match s with
  | String c0 (String c1 r) =>
      if negb (c0 =? "-") then NonFlag
      else
        match (if c1 =? "-" then r else String c1 r) with
        | EmptyString => Terminator
        | String n0 more =>
            if (n0 =? "-") || (n0 =? "=") then Bad
            else let (n, v) := splitAtEquals more in Named (String n0 n) v
        end
  | _ => NonFlag
  end.

Section Parse.

(** [time.ParseDuration] computes fractions in floating point and is left
    open: [None] is an error. *)
Variable ParseDuration : string -> option Z.

(** [flag.Value.Set] of each flag; [None] is an error. *)
Definition set (f : flagVar) (value : string) (v : vars) : option vars :=
  match f with
  | fOrigin =>
      Some (mkVars value (metronAddr v) (metricsInterval v) (metricsCmd v)
              (metricsCmdArgs v) (debug v))
  | fMetronAddr =>
      Some (mkVars (origin v) value (metricsInterval v) (metricsCmd v)
              (metricsCmdArgs v) (debug v))
  | fMetricsCmd =>
      Some (mkVars (origin v) (metronAddr v) (metricsInterval v) value
              (metricsCmdArgs v) (debug v))
  | fMetricsCmdArg =>
      match multiFlag_Set value (metricsCmdArgs v) with
      | (args, None) =>
          Some (mkVars (origin v) (metronAddr v) (metricsInterval v)
                  (metricsCmd v) args (debug v))
      | (_, Some _) => None
      end
  | fMetricsInterval =>
      match ParseDuration value with
      | Some d =>
          Some (mkVars (origin v) (metronAddr v) d (metricsCmd v)
                  (metricsCmdArgs v) (debug v))
      | None => None
      end
  | fDebug =>
      match ParseBool value with
      | Some b =>
          Some (mkVars (origin v) (metronAddr v) (metricsInterval v)
                  (metricsCmd v) (metricsCmdArgs v) b)
      | None => None
      end
  end.

(** [FlagSet.Parse]: [parseOne] over the arguments until one is no flag, the
    arguments end, or a flag fails.  A boolean flag takes a value only after
    an equals sign; any other flag takes the next argument when it has none. *)
Fixpoint Parse (v : vars) (args : list string) {struct args} : parsed :=
  match args with
  | [] => Parsed v []
  | s :: rest =>
      match classify s with
      | NonFlag => Parsed v args
      | Terminator => Parsed v rest
      | Bad => Failed (BadSyntax s)
      | Named name value =>
          match formal name with
          | None =>
              Failed (if String.eqb name "help" || String.eqb name "h"
                      then Help else NotDefined name)
          | Some fDebug =>
              match value with
              | Some x =>
                  match set fDebug x v with
                  | Some v' => Parse v' rest
                  | None => Failed (InvalidBoolean x name)
                  end
              | None =>
                  match set fDebug "true" v with
                  | Some v' => Parse v' rest
                  | None => Failed (InvalidBoolean "true" name)
                  end
              end
          | Some f =>
              match value with
              | Some x =>
                  match set f x v with
                  | Some v' => Parse v' rest
                  | None => Failed (InvalidValue x name)
                  end
              | None =>
                  match rest with
                  | x :: rest' =>
                      match set f x v with
                      | Some v' => Parse v' rest'
                      | None => Failed (InvalidValue x name)
                      end
                  | [] => Failed (NeedsArgument name)
                  end
              end
          end
      end
  end.

End Parse.

(** The part of the variables [process] and the loop read. *)
Definition configOf (v : vars) : config :=
  mkConfig (metricsCmd v) (metricsCmdArgs v) (metricsInterval v).

End Flag.

(** The argument list the integration suite's [runCmd] starts the program
    with. *)
Definition runCmd (origin : string) (debugLog : bool)
    (metronAddress metricsInterval metricsCmd : string)
    (metricsCmdArgs : list string) : list string :=
  let cmdArgs :=
    ["--origin"%string; origin; "--metron-addr"%string; metronAddress;
     "--metrics-interval"%string; metricsInterval;
     "--metrics-cmd"%string; metricsCmd] in
  let cmdArgs := if debugLog then cmdArgs ++ ["--debug"%string] else cmdArgs in
  fold_left (fun cmdArgs arg => cmdArgs ++ ["--metrics-cmd-arg"%string; arg])
    metricsCmdArgs cmdArgs.

(** ** The start of [main] *)

(** lager's log levels, in order. *)
Inductive LogLevel : Type := DEBUG | INFO | ERROR | FATAL.

Definition levelNumber (l : LogLevel) : nat :=
  match l with DEBUG => 0 | INFO => 1 | ERROR => 2 | FATAL => 3 end.

Inductive stream : Type := Stdout | Stderr.

(** What [main] does before the first cycle, besides logging. *)
Inductive startupEvent : Type :=
| FlagUsage                                            (* flag.Usage() *)
| Fprintf (s : stream) (text : string)                 (* fmt.Fprintf *)
| RegisterSink (s : stream) (minLogLevel : LogLevel)
    (* logger.RegisterSink(lager.NewWriterSink(s, minLogLevel)) *)
| DropsondeInitialize (metronAddr origin : string).    (* dropsonde.Initialize *)

(** A step of the start: the calls it makes and how it ends. *)
Definition startup_step (A : Type) : Type := list startupEvent * outcome A.

Definition andThen {A B : Type} (m : startup_step A) (k : A -> startup_step B)
  : startup_step B :=
  match m with
  | (evs, Returned a) => let (evs', o) := k a in (evs ++ evs', o)
  | (evs, Exited code) => (evs, Exited code)
  end.

(** [assertFlag]. *)
Definition assertFlag (name value : string) : startup_step unit :=
  if String.eqb value "" then
    ([FlagUsage; Fprintf Stderr (String "010" ("Must provide --" ++ name))],
     Exited 1)
  else ([], Returned tt).

(** The sinks [main] registers. *)
Definition sinks (debug : bool) : list (stream * LogLevel) :=
  [(Stdout, if debug then DEBUG else INFO); (Stderr, ERROR)].

(** The level of a call of the logger. *)
Definition logLevel (e : event) : option LogLevel :=
  match e with
  | Info _ _ => Some INFO
  | Error _ _ _ => Some ERROR
  | _ => None
  end.

(** The streams an entry of level [l] is written to: a writer sink drops an
    entry whose level is below its own. *)
Definition writtenTo (registered : list (stream * LogLevel)) (l : LogLevel)
  : list stream :=
  map fst
    (filter (fun s => Nat.leb (levelNumber (snd s)) (levelNumber l)) registered).

(** [main] from the line after [flag.Parse()], the variables being [v] and
    [dropsonde.Initialize] returning [initErr]; of the loop, [n] rounds.  The
    first component is what happens before the logger is used, the second
    the run from then on. *)
Definition main (v : Flag.vars) (initErr : option error) (n : nat) (E : env)
  : list startupEvent * run unit :=
  match
    andThen (assertFlag "origin" (Flag.origin v)) (fun _ =>
    andThen (assertFlag "metron-addr" (Flag.metronAddr v)) (fun _ =>
    andThen (assertFlag "metrics-cmd" (Flag.metricsCmd v)) (fun _ =>
      (map (fun s => RegisterSink (fst s) (snd s)) (sinks (Flag.debug v))
       ++ [DropsondeInitialize (Flag.metronAddr v) (Flag.origin v)],
       Returned initErr))))
  with
  | (evs, Exited code) => (evs, mkRun (Exited code) startup [])
  | (evs, Returned (Some err)) =>
      (evs,
       (logger_Error "Dropsonde failed to initialize" err [] ;; os_Exit 1)
         E startup)
  | (evs, Returned None) => (evs, schedule (Flag.configOf v) n E startup)
  end.

(** ** More ways to read a trace *)

(** The programs run, each with its arguments, in order. *)
Fixpoint commandsRun (evs : list event) : list (string * list string) :=
  match evs with
  | [] => []
  | CombinedOutput name args :: more => (name, args) :: commandsRun more
  | _ :: more => commandsRun more
  end.

(** How a cycle ends, by what the command did. *)
Definition verdict (r : commandResult) : outcome unit :=
  match r with
  | NotRun _ _ => Exited 1
  | Ran out st =>
      if (st =? 0)%Z then
        match Decode out with
        | Ok _ => Returned tt
        | Err _ => Exited 1
        end
      else if (st =? 10)%Z then Returned tt
      else Exited 0
  end.

(** A call that runs no program. *)
Definition otherCall (e : event) : Prop :=
  match e with
  | CombinedOutput _ _ => False
  | _ => True
  end.

(** What [process] does with what [CombinedOutput] returned. *)
Definition afterCommand (r : string * option error) : M unit :=
  let (out, err) := r in
  match err with
  | Some (ExitError exitStatus) =>
      if (exitStatus =? 10)%Z then
        logger_Info action
          [entry "event" (DString "not yet ready to emit metrics");
           entry "output" (DString out)]
      else
        logger_Error action (ExitError exitStatus)
          [entry "event" (DString "failed"); entry "output" (DString out)] ;;
        os_Exit 0
  | Some err =>
      logger_Error action err
        [entry "event" (DString "failed");
         entry "output"
           (DString
              "no metrics command has been configured, cannot collect metrics")] ;;
      os_Exit 1
  | None =>
      logger_Info action [entry "event" (DString "done")] ;;
      decoded <- decoder_Decode out ;;
      match decoded with
      | Err err =>
          logger_Error "parsing-metrics-output" err
            [entry "event" (DString "failed"); entry "output" (DString out)] ;;
          os_Exit 1
      | Ok parsedMetrics => forward parsedMetrics
      end
  end.

(** The first flag of origin, metron-addr and metrics-cmd that is empty. *)
Definition firstMissing (v : Flag.vars) : option string :=
  if String.eqb (Flag.origin v) "" then Some "origin"%string
  else if String.eqb (Flag.metronAddr v) "" then Some "metron-addr"%string
  else if String.eqb (Flag.metricsCmd v) "" then Some "metrics-cmd"%string
  else None.

(** A string in ASCII lower case. *)
Definition lowerChar (c : ascii) : ascii :=
  if Char.between "A" "Z" c then ascii_of_N (Char.code c + 32) else c.

Fixpoint lower (s : string) : string :=
  match s with
  | EmptyString => EmptyString
  | String c r => String (lowerChar c) (lower r)
  end.

(** All bytes of the string are JSON white space. *)
Fixpoint allSpace (s : string) : bool :=
  match s with
  | EmptyString => true
  | String c r => Char.isSpace c && allSpace r
  end.

(** A duration parser that knows the interval of the integration suite. *)
Definition tenMilliseconds (s : string) : option Z :=
  if String.eqb s "10ms" then Some 10000000%Z else None.

(** * Proofs *)

(** ** The outcomes of a cycle *)

(** Unfolds the calls of a cycle. *)
Ltac run_calls :=
  cbv beta iota zeta delta
    [process bind ret cmd_CombinedOutput decoder_Decode logger_Info
     logger_Error os_Exit call events ranFine];
  cbn [outcomeOf final trace Z.eqb Pos.eqb runs sends now calls map snd app
       forwarded decoded errorsLogged].

(** Runs a cycle symbolically, as far as the hypotheses decide it. *)
Ltac run_cycle :=
  run_calls;
  repeat match goal with
    | H : command _ _ = _ |- _ => rewrite H; run_calls
    | H : Decode _ = _ |- _ => rewrite H; run_calls
    | H : ?st <> ?k |- context [(?st =? ?k)%Z] =>
        destruct (Z.eqb_spec st k) as [?|_]; [contradiction|]; run_calls
    end.

(** C3.  When the command exits with status 10, whatever it printed, the
    cycle logs the informational event "not yet ready to emit metrics" with
    the captured output and returns: [Decode] is not called, no metric is
    forwarded and the process does not exit. *)
Theorem not_ready_is_skipped (cfg : config) (E : env) (w : world) (out : string) :
  command E (runs w) = Ran out 10 ->
  outcomeOf (process cfg E w) = Returned tt /\
  events (process cfg E w) =
    [Info action [entry "event" (DString "starting")];
     CombinedOutput (metricsCmd cfg) (metricsCmdArgs cfg);
     Info action
       [entry "event" (DString "not yet ready to emit metrics");
        entry "output" (DString out)]] /\
  decoded (events (process cfg E w)) = [] /\
  forwarded (events (process cfg E w)) = [].
Proof.
  intros Hcmd. run_cycle. repeat split; reflexivity.
Qed.

(** C2.  When the command runs and exits with a status that is neither 0 nor
    10, the cycle logs exactly one error event, which carries the captured
    output, and then ends the process with exit status 0; [Decode] is not
    called and no metric is forwarded. *)
Theorem command_failure_exits_zero (cfg : config) (E : env) (w : world)
    (out : string) (st : Z) :
  command E (runs w) = Ran out st -> st <> 0%Z -> st <> 10%Z ->
  outcomeOf (process cfg E w) = Exited 0 /\
  events (process cfg E w) =
    [Info action [entry "event" (DString "starting")];
     CombinedOutput (metricsCmd cfg) (metricsCmdArgs cfg);
     Error action (ExitError st)
       [entry "event" (DString "failed"); entry "output" (DString out)];
     OsExit 0] /\
  errorsLogged (events (process cfg E w)) =
    [Error action (ExitError st)
       [entry "event" (DString "failed"); entry "output" (DString out)]] /\
  decoded (events (process cfg E w)) = [] /\
  forwarded (events (process cfg E w)) = [].
Proof.
  intros Hcmd H0 H10. run_cycle. repeat split; reflexivity.
Qed.

(** C4.  When the command cannot be started at all, the cycle logs an error
    and ends the process with exit status 1; [Decode] is not called and no
    metric is forwarded. *)
Theorem launch_failure_exits_nonzero (cfg : config) (E : env) (w : world)
    (out msg : string) :
  command E (runs w) = NotRun out msg ->
  outcomeOf (process cfg E w) = Exited 1 /\
  events (process cfg E w) =
    [Info action [entry "event" (DString "starting")];
     CombinedOutput (metricsCmd cfg) (metricsCmdArgs cfg);
     Error action (StartError msg)
       [entry "event" (DString "failed");
        entry "output"
          (DString
             "no metrics command has been configured, cannot collect metrics")];
     OsExit 1] /\
  decoded (events (process cfg E w)) = [] /\
  forwarded (events (process cfg E w)) = [].
Proof.
  intros Hcmd. run_cycle. repeat split; reflexivity.
Qed.

(** What a cycle does when the command exited with 0 and its output does
    not decode. *)
Lemma process_parse_failure (cfg : config) (E : env) (w : world)
    (out : string) (e : error) :
  command E (runs w) = Ran out 0 -> Decode out = Err e ->
  outcomeOf (process cfg E w) = Exited 1 /\
  events (process cfg E w) =
    ranFine cfg out ++
    [Error "parsing-metrics-output" e
       [entry "event" (DString "failed"); entry "output" (DString out)];
     OsExit 1].
Proof.
  intros Hcmd Hdec. run_cycle. split; reflexivity.
Qed.

(** C5.  When the command exits with 0 and its output does not decode as a
    payload, the cycle logs an error event that carries the raw output and
    the decoder's error, then ends the process with exit status 1; no metric
    of the cycle is forwarded. *)
Theorem parse_failure_exits_nonzero (cfg : config) (E : env) (w : world)
    (out : string) (e : error) :
  command E (runs w) = Ran out 0 -> Decode out = Err e ->
  outcomeOf (process cfg E w) = Exited 1 /\
  events (process cfg E w) =
    ranFine cfg out ++
    [Error "parsing-metrics-output" e
       [entry "event" (DString "failed"); entry "output" (DString out)];
     OsExit 1] /\
  forwarded (events (process cfg E w)) = [].
Proof.
  intros Hcmd Hdec.
  destruct (process_parse_failure cfg E w out e Hcmd Hdec) as [Ho He].
  rewrite He. split; [exact Ho | split; reflexivity].
Qed.

(** ** Forwarding a payload *)

Lemma forward_run (E : env) (ms : Metrics) : forall w : world,
  outcomeOf (forward ms E w) = Returned tt /\
  events (forward ms E w) = forwarding E (sends w) ms.
Proof.
  induction ms as [|m more IH]; intros w.
  - split; reflexivity.
  - cbn [forward forwarding].
    unfold bind, dmetrics_SendValue, logger_Error, call, ret, events.
    destruct (sendResult E (sends w)) as [err|]; cbv beta iota zeta;
      match goal with |- context [forward more E ?w'] =>
        destruct (IH w') as [Ho He]; unfold events in He;
        revert Ho He; destruct (forward more E w') as [o w2 t2]
      end;
      cbn; intros -> ->; split; reflexivity.
Qed.

Lemma forwarded_app (a b : list event) :
  forwarded (a ++ b) = forwarded a ++ forwarded b.
Proof.
  induction a as [|e a IH]; [reflexivity|].
  destruct e; cbn; rewrite ?IH; reflexivity.
Qed.

(** Every metric is sent, in order, whatever the earlier calls returned. *)
Lemma forwarded_forwarding (E : env) (ms : Metrics) : forall k : nat,
  forwarded (forwarding E k ms) = map triple ms.
Proof.
  induction ms as [|m more IH]; intros k; [reflexivity|].
  cbn [forwarding forwarded map]. rewrite forwarded_app, IH.
  destruct (sendResult E k); reflexivity.
Qed.

(** A failed call is logged with the metric it was made for. *)
Lemma forwarding_logs_failure (E : env) (ms : Metrics) :
  forall (k i : nat) (m : Metric) (err : error),
  nth_error ms i = Some m -> sendResult E (k + i) = Some err ->
  In (Error "sending metric value failed" err
        [entry "event" (DString "failed");
         entry "metric.key" (DString (Key m));
         entry "metric.value" (DFloat (Value m));
         entry "metric.unit" (DString (Unit m))])
     (forwarding E k ms).
Proof.
  induction ms as [|m0 more IH]; intros k i m err Hnth Hres.
  - destruct i; discriminate.
  - cbn [forwarding]. right. apply in_or_app.
    destruct i as [|i]; cbn in Hnth.
    + injection Hnth as ->. rewrite Nat.add_0_r in Hres. rewrite Hres.
      left. left. reflexivity.
    + right. apply (IH (S k) i m err Hnth).
      rewrite <- Hres. f_equal. lia.
Qed.

(** What a cycle does when the command exited with 0 and its output decodes. *)
Lemma process_success (cfg : config) (E : env) (w : world)
    (out : string) (ms : Metrics) :
  command E (runs w) = Ran out 0 -> Decode out = Ok ms ->
  outcomeOf (process cfg E w) = Returned tt /\
  events (process cfg E w) = ranFine cfg out ++ forwarding E (sends w) ms.
Proof.
  intros Hcmd Hdec. run_cycle.
  match goal with |- context [forward ms E ?w'] =>
    destruct (forward_run E ms w') as [Ho He] end.
  unfold events in He. revert Ho He.
  match goal with |- context [forward ms E ?w'] =>
    destruct (forward ms E w') as [o w2 t2] end.
  cbn. intros -> ->. split; reflexivity.
Qed.

(** The metrics a JSON array decodes to are those of its elements, one for
    one. *)
Lemma storeElems_Forall2 (elems : list json) : forall ms : Metrics,
  Unmarshal.storeElems elems = Ok ms ->
  Forall2 (fun v m => Unmarshal.storeMetric v = Ok m) elems ms.
Proof.
  induction elems as [|v more IH]; intros ms H; cbn in H.
  - injection H as <-. constructor.
  - destruct (Unmarshal.storeMetric v) as [m|e] eqn:Hm; [|discriminate].
    destruct (Unmarshal.storeElems more) as [ms'|e] eqn:Hms; [|discriminate].
    injection H as <-. constructor; [exact Hm | apply IH; reflexivity].
Qed.

(** C1.  When the command exits with 0 and its output decodes as a JSON
    array, the cycle calls [SendValue] once per element of the array, in the
    array's order, the i-th call with the key, value and unit of the metric
    decoded from the i-th element; nothing is merged or dropped. *)
Theorem one_send_per_record (cfg : config) (E : env) (w : world)
    (out rest : string) (elems : list json) (ms : Metrics) :
  command E (runs w) = Ran out 0 ->
  Scanner.readValue Scanner.reset out = Scanner.Value (JArray elems) rest ->
  Decode out = Ok ms ->
  outcomeOf (process cfg E w) = Returned tt /\
  forwarded (events (process cfg E w)) = map triple ms /\
  length (forwarded (events (process cfg E w))) = length elems /\
  Forall2 (fun v m => Unmarshal.storeMetric v = Ok m) elems ms.
Proof.
  intros Hcmd Hscan Hdec.
  destruct (process_success cfg E w out ms Hcmd Hdec) as [Ho He].
  assert (HF : Forall2 (fun v m => Unmarshal.storeMetric v = Ok m) elems ms).
  { apply storeElems_Forall2. unfold Decode in Hdec. rewrite Hscan in Hdec.
    exact Hdec. }
  rewrite He, forwarded_app, forwarded_forwarding. cbn.
  repeat split; try assumption.
  rewrite length_map. symmetry. exact (Forall2_length HF).
Qed.

(** C8.  When the payload decodes, a call of [SendValue] that returns an
    error is logged with the metric's key, value and unit, and the metrics
    after it are forwarded all the same: every metric is sent, the cycle
    returns and the process does not exit. *)
Theorem send_failure_is_logged_only (cfg : config) (E : env) (w : world)
    (out : string) (ms : Metrics) :
  command E (runs w) = Ran out 0 -> Decode out = Ok ms ->
  outcomeOf (process cfg E w) = Returned tt /\
  events (process cfg E w) = ranFine cfg out ++ forwarding E (sends w) ms /\
  forwarded (events (process cfg E w)) = map triple ms /\
  forall (i : nat) (m : Metric) (err : error),
    nth_error ms i = Some m -> sendResult E (sends w + i) = Some err ->
    In (Error "sending metric value failed" err
          [entry "event" (DString "failed");
           entry "metric.key" (DString (Key m));
           entry "metric.value" (DFloat (Value m));
           entry "metric.unit" (DString (Unit m))])
       (events (process cfg E w)).
Proof.
  intros Hcmd Hdec.
  destruct (process_success cfg E w out ms Hcmd Hdec) as [Ho He].
  rewrite He. repeat split; try assumption.
  - rewrite forwarded_app, forwarded_forwarding. reflexivity.
  - intros i m err Hnth Hres. apply in_or_app. right.
    exact (forwarding_logs_failure E ms (sends w) i m err Hnth Hres).
Qed.

(** ** The scanner stops at the end of the first value *)

Module ScannerFacts.

Import Scanner.

(** Case analysis on the tests a step makes, outermost first. *)
Ltac split_tests :=
  repeat match goal with
    | |- (if ?b then _ else _) = _ -> _ => destruct b
    | |- match ?x with _ => _ end = _ -> _ => destruct x
    end.

Ltac step_cases st :=
  destruct st;
  unfold beginValue, beginString, afterInt, afterESign, endValue, complete;
  cbn; split_tests.

Lemma reset_settled : settled reset.
Proof. exact I. Qed.

Lemma stepByte_settled (s s' : scanner) (c : ascii) :
  stepByte s c = scanContinue s' -> settled s'.
Proof.
  destruct s as [st stack]; unfold stepByte, settled; cbn [step parseStack].
  step_cases st; intros H; inversion H; subst; cbn; try exact I; discriminate.
Qed.

(** A space ends nothing but a top-level number. *)
Lemma space_ends_number (s : scanner) (v : json) :
  settled s -> stepByte s " " = scanEnd v false -> exists lit, v = JNumber lit.
Proof.
  destruct s as [st stack]; unfold stepByte, settled; cbn [step parseStack].
  intros Hs H. revert Hs. revert H.
  step_cases st; intros H Hs; inversion H; subst;
    try (eexists; reflexivity); try discriminate; congruence.
Qed.

(** Only a number is ended by the end of the input. *)
Lemma atEOF_number (s : scanner) (v : json) (rest : string) :
  settled s -> atEOF s = Value v rest -> exists lit, v = JNumber lit.
Proof.
  intros Hs. unfold atEOF.
  destruct (stepByte s " ") as [s'|v' [|]|e] eqn:Hstep; try discriminate.
  intros H. injection H as <- _. exact (space_ends_number s v' Hs Hstep).
Qed.

(** A value that is no number ends at the same byte whatever follows it. *)
Lemma readValue_app (buf extra : string) :
  forall (s : scanner) (v : json) (rest : string),
  settled s ->
  readValue s buf = Value v rest ->
  (forall lit, v <> JNumber lit) ->
  readValue s (buf ++ extra) = Value v (rest ++ extra).
Proof.
  induction buf as [|c buf IH]; intros s v rest Hs Hread Hnum.
  - cbn in Hread. destruct (atEOF_number s v rest Hs Hread) as [lit ->].
    exfalso. exact (Hnum lit eq_refl).
  - cbn in Hread |- *.
    destruct (stepByte s c) as [s'|v' consumed|e] eqn:Hstep.
    + apply IH; [exact (stepByte_settled s s' c Hstep) | exact Hread | exact Hnum].
    + destruct consumed; injection Hread as <- <-; reflexivity.
    + discriminate.
Qed.

End ScannerFacts.

(** C10.  [Decode] reads only the first JSON value of the output: when the
    output is a JSON array that decodes to [ms], followed by any bytes at
    all, the decode succeeds with [ms], no parse error is logged, and the
    cycle forwards exactly the metrics of that array. *)
Theorem trailing_bytes_are_ignored (cfg : config) (E : env) (w : world)
    (out rest extra : string) (elems : list json) (ms : Metrics) :
  Scanner.readValue Scanner.reset out = Scanner.Value (JArray elems) rest ->
  Decode out = Ok ms ->
  command E (runs w) = Ran (out ++ extra) 0 ->
  Decode (out ++ extra) = Ok ms /\
  outcomeOf (process cfg E w) = Returned tt /\
  events (process cfg E w) =
    ranFine cfg (out ++ extra) ++ forwarding E (sends w) ms /\
  forwarded (events (process cfg E w)) = map triple ms.
Proof.
  intros Hscan Hdec Hcmd.
  assert (Hdec' : Decode (out ++ extra) = Ok ms).
  { unfold Decode in Hdec |- *.
    rewrite (ScannerFacts.readValue_app out extra Scanner.reset
               (JArray elems) rest ScannerFacts.reset_settled Hscan)
      by discriminate.
    rewrite Hscan in Hdec. exact Hdec. }
  destruct (process_success cfg E w (out ++ extra) ms Hcmd Hdec') as [Ho He].
  repeat split; try assumption.
  rewrite He, forwarded_app, forwarded_forwarding. reflexivity.
Qed.

(** ** What the decoder accepts *)

Module DecodeFacts.

Import Unmarshal.


Lemma storeMember_other (f : field) (m m' : Metric) (key : string) (v : json) :
  findField fields key None <> Some f ->
  storeMember m (key, v) = Ok m' -> get f m' = get f m.
Proof.
  unfold storeMember. intros Hf.
  destruct (findField fields key None) as [[| |]|]; intros H.
  - destruct (storeString v (Key m)); [|discriminate]. injection H as <-.
    destruct f; [congruence | reflexivity | reflexivity].
  - destruct (storeFloat64 v (Value m)); [|discriminate]. injection H as <-.
    destruct f; [reflexivity | congruence | reflexivity].
  - destruct (storeString v (Unit m)); [|discriminate]. injection H as <-.
    destruct f; [reflexivity | reflexivity | congruence].
  - injection H as <-. reflexivity.
Qed.

(** A field that no member names keeps the value it had. *)
Lemma storeMembers_absent (f : field) (members : list (string * json)) :
  absent f members ->
  forall m m' : Metric, storeMembers m members = Ok m' -> get f m' = get f m.
Proof.
  induction members as [|[key v] more IH]; intros Habs m m' H.
  - injection H as <-. reflexivity.
  - cbn [storeMembers] in H.
    destruct (storeMember m (key, v)) as [m1|e] eqn:H1; [|discriminate].
    rewrite (IH (fun k x Hin => Habs k x (or_intror Hin)) m1 m' H).
    apply (storeMember_other f m m1 key v); [|exact H1].
    apply (Habs key v). left. reflexivity.
Qed.

End DecodeFacts.

(** ** Records with other fields, without fields, without a key *)






(** ** The key of a record *)

(** A member that is [null] wherever it names the field leaves the field as
    it was. *)
Lemma storeMember_keeps (f : Unmarshal.field) (m m' : Metric) (key : string)
    (v : json) :
  (Unmarshal.findField Unmarshal.fields key None = Some f -> v = JNull) ->
  Unmarshal.storeMember m (key, v) = Ok m' ->
  Unmarshal.get f m' = Unmarshal.get f m.
Proof.
  intros Hnull H.
  destruct (Unmarshal.findField Unmarshal.fields key None) as [g|] eqn:Hg.
  - assert (Hgf : g = f \/ g <> f)
      by (destruct g, f; first [left; reflexivity | right; discriminate]).
    destruct Hgf as [->|Hne].
    + rewrite (Hnull eq_refl) in H. unfold Unmarshal.storeMember in H.
      rewrite Hg in H. destruct f; cbn in H; injection H as <-; reflexivity.
    + apply (DecodeFacts.storeMember_other f m m' key v); [|exact H].
      rewrite Hg. congruence.
  - apply (DecodeFacts.storeMember_other f m m' key v); [|exact H].
    rewrite Hg. discriminate.
Qed.

Lemma storeMembers_keeps (f : Unmarshal.field)
    (members : list (string * json)) :
  (forall (key : string) (v : json),
     In (key, v) members ->
     Unmarshal.findField Unmarshal.fields key None = Some f -> v = JNull) ->
  forall m m' : Metric,
    Unmarshal.storeMembers m members = Ok m' ->
    Unmarshal.get f m' = Unmarshal.get f m.
Proof.
  induction members as [|[key v] more IH]; intros Hnull m m' H.
  - injection H as <-. reflexivity.
  - cbn [Unmarshal.storeMembers] in H.
    destruct (Unmarshal.storeMember m (key, v)) as [m1|e] eqn:H1;
      [|discriminate].
    rewrite (IH (fun k x Hin => Hnull k x (or_intror Hin)) m1 m' H).
    apply (storeMember_keeps f m m1 key v); [|exact H1].
    apply (Hnull key v). left. reflexivity.
Qed.

(** The last string given to key or to unit is what the field holds. *)
Lemma storeMembers_last_string (f : Unmarshal.field) (key s : string)
    (before after : list (string * json)) :
  Unmarshal.findField Unmarshal.fields key None = Some f ->
  f <> Unmarshal.fieldValue ->
  (forall (key' : string) (v : json),
     In (key', v) after ->
     Unmarshal.findField Unmarshal.fields key' None = Some f -> v = JNull) ->
  forall m m' : Metric,
    Unmarshal.storeMembers m (before ++ (key, JString s) :: after) = Ok m' ->
    Unmarshal.get f m' = inl s.
Proof.
  intros Hf Hnv Hnull.
  induction before as [|member before IH]; intros m m' H.
  - cbn [app Unmarshal.storeMembers] in H.
    destruct (Unmarshal.storeMember m (key, JString s)) as [m1|e] eqn:H1;
      [|discriminate].
    rewrite (storeMembers_keeps f after Hnull m1 m' H).
    unfold Unmarshal.storeMember in H1. rewrite Hf in H1.
    destruct f; [| contradiction |]; cbn in H1; injection H1 as <-;
      reflexivity.
  - cbn [app Unmarshal.storeMembers] in H.
    destruct (Unmarshal.storeMember m member) as [m1|e]; [|discriminate].
    exact (IH m1 m' H).
Qed.

(** A record all of whose members fit the fields they name is accepted. *)
Lemma storeMembers_fits (members : list (string * json)) :
  (forall (key : string) (v : json) (f : Unmarshal.field),
     In (key, v) members ->
     Unmarshal.findField Unmarshal.fields key None = Some f ->
     Unmarshal.fits f v = true) ->
  forall m : Metric, exists m', Unmarshal.storeMembers m members = Ok m'.
Proof.
  induction members as [|[key v] more IH]; intros Hfit m.
  - exists m. reflexivity.
  - cbn [Unmarshal.storeMembers].
    assert (H1 : exists m1, Unmarshal.storeMember m (key, v) = Ok m1).
    { unfold Unmarshal.storeMember.
      destruct (Unmarshal.findField Unmarshal.fields key None) as [f|] eqn:Hf;
        [|eexists; reflexivity].
      pose proof (Hfit key v f (or_introl eq_refl) Hf) as Hv.
      destruct f, v; cbn in Hv |- *; try discriminate;
        try (eexists; reflexivity).
      destruct (Strconv.ParseFloat lit); [eexists; reflexivity | discriminate]. }
    destruct H1 as [m1 ->].
    apply (IH (fun k x f Hin => Hfit k x f (or_intror Hin))).
Qed.

(** The metric of the i-th element of a decoded array. *)
Lemma Forall2_storeMetric_nth (elems : list json) (ms : Metrics) :
  Forall2 (fun v m => Unmarshal.storeMetric v = Ok m) elems ms ->
  forall (i : nat) (v : json),
    nth_error elems i = Some v ->
    exists m, nth_error ms i = Some m /\ Unmarshal.storeMetric v = Ok m.
Proof.
  induction 1 as [|v0 m elems ms Hv _ IH]; intros [|i] v Hnth;
    try discriminate.
  - injection Hnth as <-. exists m. split; [reflexivity | exact Hv].
  - exact (IH i v Hnth).
Qed.

(** C7, as corrected.  The key of a decoded metric is the string its record
    gives it and may be empty; nothing checks it.  When the command exits
    with 0 and its output decodes, the cycle returns and forwards every
    decoded metric, whatever its key: the i-th call of [SendValue] carries
    the key, value and unit of the metric of the i-th record.  That key is
    the last string the record gives to a member named key (a [null] after
    it changes nothing), be it the empty string, and the empty string when
    the record gives key no string at all.  A record that has no key member
    is accepted as soon as its other members fit their fields, and its key
    is then the empty string. *)
Theorem key_is_what_the_record_gives :
  (forall (cfg : config) (E : env) (w : world) (out rest : string)
          (elems : list json) (ms : Metrics),
     command E (runs w) = Ran out 0 ->
     Scanner.readValue Scanner.reset out = Scanner.Value (JArray elems) rest ->
     Decode out = Ok ms ->
     outcomeOf (process cfg E w) = Returned tt /\
     forwarded (events (process cfg E w)) = map triple ms /\
     forall (i : nat) (v : json),
       nth_error elems i = Some v ->
       exists m : Metric,
         Unmarshal.storeMetric v = Ok m /\ nth_error ms i = Some m /\
         nth_error (forwarded (events (process cfg E w))) i =
           Some (Key m, Value m, Unit m)) /\
  (forall (before after : list (string * json)) (name s : string)
          (m : Metric),
     Unmarshal.storeMetric (JObject (before ++ (name, JString s) :: after)) =
       Ok m ->
     Unmarshal.findField Unmarshal.fields name None =
       Some Unmarshal.fieldKey ->
     (forall (name' : string) (v : json),
        In (name', v) after ->
        Unmarshal.findField Unmarshal.fields name' None =
          Some Unmarshal.fieldKey -> v = JNull) ->
     Key m = s) /\
  (forall (members : list (string * json)) (m : Metric),
     Unmarshal.storeMetric (JObject members) = Ok m ->
     (forall (name : string) (v : json),
        In (name, v) members ->
        Unmarshal.findField Unmarshal.fields name None =
          Some Unmarshal.fieldKey -> v = JNull) ->
     Key m = ""%string) /\
  (forall members : list (string * json),
     Unmarshal.absent Unmarshal.fieldKey members ->
     (forall (name : string) (v : json) (f : Unmarshal.field),
        In (name, v) members ->
        Unmarshal.findField Unmarshal.fields name None = Some f ->
        Unmarshal.fits f v = true) ->
     exists m : Metric,
       Unmarshal.storeMetric (JObject members) = Ok m /\ Key m = ""%string).
Proof.
  split; [|split; [|split]].
  - intros cfg E w out rest elems ms Hcmd Hscan Hdec.
    destruct (process_success cfg E w out ms Hcmd Hdec) as [Ho He].
    assert (Hfw : forwarded (events (process cfg E w)) = map triple ms).
    { rewrite He, forwarded_app, forwarded_forwarding. reflexivity. }
    split; [exact Ho|]. split; [exact Hfw|].
    intros i v Hnth.
    assert (HF : Forall2 (fun v m => Unmarshal.storeMetric v = Ok m) elems ms).
    { apply storeElems_Forall2. unfold Decode in Hdec. rewrite Hscan in Hdec.
      exact Hdec. }
    destruct (Forall2_storeMetric_nth elems ms HF i v Hnth) as [m [Hm Hv]].
    exists m. split; [exact Hv|]. split; [exact Hm|].
    rewrite Hfw, nth_error_map, Hm. reflexivity.
  - intros before after name s m H Hf Hnull.
    assert (Hnv : Unmarshal.fieldKey <> Unmarshal.fieldValue) by discriminate.
    pose proof (storeMembers_last_string Unmarshal.fieldKey name s before
                  after Hf Hnv Hnull _ _ H) as Hget.
    cbn in Hget. congruence.
  - intros members m H Hnull.
    pose proof (storeMembers_keeps Unmarshal.fieldKey members Hnull _ _ H)
      as Hget.
    cbn in Hget. congruence.
  - intros members Habs Hfit.
    destruct (storeMembers_fits members Hfit Unmarshal.zeroMetric) as [m Hm].
    exists m. split; [exact Hm|].
    pose proof (DecodeFacts.storeMembers_absent Unmarshal.fieldKey members
                  Habs _ _ Hm) as Hget.
    cbn in Hget. congruence.
Qed.

(** C7 as stated fails: a record whose key is the empty string, and a record
    without a key, decode to metrics with the empty key, and the cycle
    forwards them. *)
Lemma empty_key_is_forwarded :
  Decode (json_text "[{'key':'','value':1,'unit':'u'},{'value':1,'unit':'u'}]") =
    Ok [mkMetric "" one "u"; mkMetric "" one "u"] /\
  forwarded
    (events
       (process echo
          (always
             (Ran (json_text "[{'key':'','value':1,'unit':'u'},{'value':1,'unit':'u'}]") 0))
          startup)) =
    [(""%string, one, "u"%string); (""%string, one, "u"%string)].
Proof.
  vm_compute. split; reflexivity.
Qed.

(** ** The clock along a trace *)

Lemma ticks_app (a b : list Z) : forall lo mid hi : Z,
  ticks lo a mid -> ticks mid b hi -> ticks lo (a ++ b) hi.
Proof.
  induction a as [|t a IH]; intros lo mid hi Ha Hb; cbn in *.
  - subst mid. exact Hb.
  - destruct Ha as [Hle Ha]. split; [exact Hle | exact (IH t mid hi Ha Hb)].
Qed.

Lemma ticks_le (l : list Z) : forall lo hi : Z, ticks lo l hi -> (lo <= hi)%Z.
Proof.
  induction l as [|t l IH]; intros lo hi H; cbn in H.
  - subst. lia.
  - destruct H as [Hle H]. specialize (IH t hi H). lia.
Qed.

Section Sound.

Variable P : event -> Prop.

Lemma sound_ret (A : Type) (a : A) : sound P (ret a).
Proof. intros E w. cbn. repeat split. constructor. Qed.

Lemma sound_call (A : Type) (least : Z) (e : event) (a : A)
    (w' : world -> world) :
  (0 <= least)%Z -> P e -> sound P (call least e a w').
Proof.
  intros Hleast He E w. unfold call, endsWith. cbn. repeat split.
  - lia.
  - constructor; [exact He | constructor].
Qed.

Lemma sound_bind (A B : Type) (m : M A) (k : A -> M B) :
  sound P m -> (forall a, sound P (k a)) -> sound P (bind m k).
Proof.
  intros Hm Hk E w. unfold bind.
  destruct (Hm E w) as [Ht [Hp He]]. revert Ht Hp He. unfold endsWith.
  destruct (m E w) as [[a|code] w1 t1]; cbn.
  - intros Ht Hp _.
    destruct (Hk a E w1) as [Ht' [Hp' He']]. revert Ht' Hp' He'.
    unfold endsWith.
    destruct (k a E w1) as [o w2 t2]; cbn. intros Ht' Hp' He'.
    repeat split.
    + rewrite map_app. exact (ticks_app _ _ _ _ _ Ht Ht').
    + apply Forall_app. split; assumption.
    + destruct o as [b|code]; [exact I|].
      destruct He' as [pre [t Hpre]]. exists (t1 ++ pre), t.
      rewrite Hpre, app_assoc. reflexivity.
  - intros Ht Hp He. repeat split; assumption.
Qed.

Lemma sound_exit (code : Z) : P (OsExit code) -> sound P (os_Exit code).
Proof.
  intros He E w. unfold os_Exit, call, endsWith. cbn. repeat split.
  - lia.
  - constructor; [exact He | constructor].
  - exists [], (now w + 0 + Z.of_N (elapsed E (calls w)))%Z. reflexivity.
Qed.

End Sound.






(** ** The scheduler loop *)






(** ** The integration tests' runs *)

(** The command prints the test's payload and exits with 0: two calls of
    [SendValue], in the payload's order. *)
Lemma one_send_per_record_witness :
  command (always (Ran metricsJson 0)) (runs startup) = Ran metricsJson 0 /\
  Scanner.readValue Scanner.reset metricsJson =
    Scanner.Value (JArray metricsElems) "" /\
  Decode metricsJson = Ok metricsParsed /\
  outcomeOf (process echo (always (Ran metricsJson 0)) startup) = Returned tt /\
  forwarded (events (process echo (always (Ran metricsJson 0)) startup)) =
    [("loadMetric"%string, four, "Load"%string);
     ("temperatureMetric"%string, ninetyNine, "Temperature"%string)] /\
  length (forwarded (events (process echo (always (Ran metricsJson 0)) startup)))
    = 2.
Proof.
  assert (Hcmd : command (always (Ran metricsJson 0)) (runs startup) =
                 Ran metricsJson 0) by reflexivity.
  assert (Hscan : Scanner.readValue Scanner.reset metricsJson =
                  Scanner.Value (JArray metricsElems) "") by reflexivity.
  assert (Hdec : Decode metricsJson = Ok metricsParsed) by reflexivity.
  destruct (one_send_per_record echo (always (Ran metricsJson 0)) startup
              metricsJson "" metricsElems metricsParsed Hcmd Hscan Hdec)
    as [Ho [Hf [Hl _]]].
  split; [exact Hcmd|]. split; [exact Hscan|]. split; [exact Hdec|].
  split; [exact Ho|]. split; [exact Hf | exact Hl].
Defined.

(** The command exits with 1. *)
Lemma command_failure_exits_zero_witness :
  command (always (Ran "failed to obtain metrics" 1)) (runs startup) =
    Ran "failed to obtain metrics" 1 /\
  outcomeOf
    (process (bash "echo -n failed to obtain metrics; exit 1")
       (always (Ran "failed to obtain metrics" 1)) startup) = Exited 0 /\
  errorsLogged
    (events
       (process (bash "echo -n failed to obtain metrics; exit 1")
          (always (Ran "failed to obtain metrics" 1)) startup)) =
    [Error action (ExitError 1)
       [entry "event" (DString "failed");
        entry "output" (DString "failed to obtain metrics")]].
Proof.
  assert (Hcmd : command (always (Ran "failed to obtain metrics" 1))
                   (runs startup) = Ran "failed to obtain metrics" 1)
    by reflexivity.
  destruct (command_failure_exits_zero
              (bash "echo -n failed to obtain metrics; exit 1")
              (always (Ran "failed to obtain metrics" 1)) startup
              "failed to obtain metrics" 1 Hcmd)
    as [Ho [_ [Hl _]]]; [lia | lia |].
  split; [exact Hcmd|]. split; [exact Ho | exact Hl].
Defined.

(** The command exits with 10. *)
Lemma not_ready_is_skipped_witness :
  command (always (Ran "failed to obtain metrics" 10)) (runs startup) =
    Ran "failed to obtain metrics" 10 /\
  outcomeOf
    (process (bash "echo -n failed to obtain metrics; exit 10")
       (always (Ran "failed to obtain metrics" 10)) startup) = Returned tt /\
  events
    (process (bash "echo -n failed to obtain metrics; exit 10")
       (always (Ran "failed to obtain metrics" 10)) startup) =
    [start;
     CombinedOutput "/bin/bash"
       ["-c"%string; "echo -n failed to obtain metrics; exit 10"%string];
     Info action
       [entry "event" (DString "not yet ready to emit metrics");
        entry "output" (DString "failed to obtain metrics")]].
Proof.
  assert (Hcmd : command (always (Ran "failed to obtain metrics" 10))
                   (runs startup) = Ran "failed to obtain metrics" 10)
    by reflexivity.
  destruct (not_ready_is_skipped
              (bash "echo -n failed to obtain metrics; exit 10")
              (always (Ran "failed to obtain metrics" 10)) startup
              "failed to obtain metrics" Hcmd)
    as [Ho [He _]].
  split; [exact Hcmd|]. split; [exact Ho | exact He].
Defined.

(** The command does not exist. *)
Lemma launch_failure_exits_nonzero_witness :
  command (always (NotRun "" "no such file or directory")) (runs startup) =
    NotRun "" "no such file or directory" /\
  outcomeOf
    (process missing (always (NotRun "" "no such file or directory")) startup) =
    Exited 1 /\
  decoded
    (events
       (process missing (always (NotRun "" "no such file or directory"))
          startup)) = [].
Proof.
  assert (Hcmd : command (always (NotRun "" "no such file or directory"))
                   (runs startup) = NotRun "" "no such file or directory")
    by reflexivity.
  destruct (launch_failure_exits_nonzero missing
              (always (NotRun "" "no such file or directory")) startup
              "" "no such file or directory" Hcmd)
    as [Ho [_ [Hd _]]].
  split; [exact Hcmd|]. split; [exact Ho | exact Hd].
Defined.

(** The command prints [invalid] and exits with 0. *)
Lemma parse_failure_exits_nonzero_witness :
  command (always (Ran "invalid" 0)) (runs startup) = Ran "invalid" 0 /\
  Decode "invalid" = Err (SyntaxError "i" "looking for beginning of value") /\
  outcomeOf (process echo (always (Ran "invalid" 0)) startup) = Exited 1 /\
  errorsLogged (events (process echo (always (Ran "invalid" 0)) startup)) =
    [Error "parsing-metrics-output"
       (SyntaxError "i" "looking for beginning of value")
       [entry "event" (DString "failed"); entry "output" (DString "invalid")]].
Proof.
  assert (Hcmd : command (always (Ran "invalid" 0)) (runs startup) =
                 Ran "invalid" 0) by reflexivity.
  assert (Hdec : Decode "invalid" =
                 Err (SyntaxError "i" "looking for beginning of value"))
    by reflexivity.
  destruct (parse_failure_exits_nonzero echo (always (Ran "invalid" 0)) startup
              "invalid" _ Hcmd Hdec) as [Ho [He _]].
  split; [exact Hcmd|]. split; [exact Hdec|]. split; [exact Ho|].
  rewrite He. reflexivity.
Defined.

(** The first metric cannot be sent: the failure is logged and the second
    metric is sent all the same. *)
Lemma send_failure_is_logged_only_witness :
  command firstSendFails (runs startup) = Ran metricsJson 0 /\
  Decode metricsJson = Ok metricsParsed /\
  outcomeOf (process echo firstSendFails startup) = Returned tt /\
  events (process echo firstSendFails startup) =
    ranFine echo metricsJson ++
    [SendValue "loadMetric" four "Load";
     Error "sending metric value failed" (SendError "connection refused")
       [entry "event" (DString "failed");
        entry "metric.key" (DString "loadMetric");
        entry "metric.value" (DFloat four);
        entry "metric.unit" (DString "Load")];
     SendValue "temperatureMetric" ninetyNine "Temperature"].
Proof.
  assert (Hcmd : command firstSendFails (runs startup) = Ran metricsJson 0)
    by reflexivity.
  assert (Hdec : Decode metricsJson = Ok metricsParsed) by reflexivity.
  destruct (send_failure_is_logged_only echo firstSendFails startup
              metricsJson metricsParsed Hcmd Hdec) as [Ho [He _]].
  split; [exact Hcmd|]. split; [exact Hdec|]. split; [exact Ho | exact He].
Defined.

(** The payload followed by bytes that are no JSON. *)
Lemma trailing_bytes_are_ignored_witness :
  Scanner.readValue Scanner.reset metricsJson =
    Scanner.Value (JArray metricsElems) "" /\
  Decode metricsJson = Ok metricsParsed /\
  command (always (Ran (metricsJson ++ "]} not json") 0)) (runs startup) =
    Ran (metricsJson ++ "]} not json") 0 /\
  Decode (metricsJson ++ "]} not json") = Ok metricsParsed /\
  outcomeOf
    (process echo (always (Ran (metricsJson ++ "]} not json") 0)) startup) =
    Returned tt /\
  forwarded
    (events
       (process echo (always (Ran (metricsJson ++ "]} not json") 0)) startup)) =
    [("loadMetric"%string, four, "Load"%string);
     ("temperatureMetric"%string, ninetyNine, "Temperature"%string)].
Proof.
  assert (Hscan : Scanner.readValue Scanner.reset metricsJson =
                  Scanner.Value (JArray metricsElems) "") by reflexivity.
  assert (Hdec : Decode metricsJson = Ok metricsParsed) by reflexivity.
  assert (Hcmd : command (always (Ran (metricsJson ++ "]} not json") 0))
                   (runs startup) = Ran (metricsJson ++ "]} not json") 0)
    by reflexivity.
  destruct (trailing_bytes_are_ignored echo
              (always (Ran (metricsJson ++ "]} not json") 0)) startup
              metricsJson "" "]} not json" metricsElems metricsParsed
              Hscan Hdec Hcmd) as [Hd [Ho [_ Hf]]].
  split; [exact Hscan|]. split; [exact Hdec|]. split; [exact Hcmd|].
  split; [exact Hd|]. split; [exact Ho | exact Hf].
Defined.

Lemma keyless_absent :
  Unmarshal.absent Unmarshal.fieldKey
    [("value"%string, JNumber "1"); ("unit"%string, JString "u")].
Proof.
  intros key v [H|[H|[]]]; injection H as <- <-; discriminate.
Defined.

(** The cycle on [keyed]: the three metrics are forwarded with the keys a,
    the empty string and c; a key that is only [null] is the empty string;
    and a record without a key is accepted. *)
Lemma key_is_what_the_record_gives_witness :
  (outcomeOf (process echo (always (Ran keyed 0)) startup) = Returned tt /\
   forwarded (events (process echo (always (Ran keyed 0)) startup)) =
     map triple keyedParsed /\
   forall (i : nat) (v : json),
     nth_error keyedElems i = Some v ->
     exists m : Metric,
       Unmarshal.storeMetric v = Ok m /\ nth_error keyedParsed i = Some m /\
       nth_error
         (forwarded (events (process echo (always (Ran keyed 0)) startup))) i =
         Some (Key m, Value m, Unit m)) /\
  Key (mkMetric "" one "u") = ""%string /\
  Key (mkMetric "c" (S754_zero false) "") = "c"%string /\
  Key Unmarshal.zeroMetric = ""%string /\
  exists m : Metric,
    Unmarshal.storeMetric
      (JObject [("value"%string, JNumber "1"); ("unit"%string, JString "u")]) =
      Ok m /\ Key m = ""%string.
Proof.
  destruct key_is_what_the_record_gives as [Hcycle [Hlast [Hnone Hkeyless]]].
  split.
  { apply (Hcycle echo (always (Ran keyed 0)) startup keyed ""%string
             keyedElems keyedParsed); reflexivity. }
  split.
  { apply (Hlast []
             [("value"%string, JNumber "1"); ("unit"%string, JString "u")]
             "key"%string ""%string (mkMetric "" one "u"));
      [reflexivity | reflexivity |].
    intros name v [H|[H|[]]]; injection H as <- <-; discriminate. }
  split.
  { apply (Hlast [("key"%string, JString "b")] [] "KEY"%string "c"%string
             (mkMetric "c" (S754_zero false) ""));
      [reflexivity | reflexivity |].
    intros name v []. }
  split.
  { apply (Hnone [("key"%string, JNull)] Unmarshal.zeroMetric);
      [reflexivity|].
    intros name v [H|[]]; injection H as <- <-; reflexivity. }
  apply (Hkeyless
           [("value"%string, JNumber "1"); ("unit"%string, JString "u")]
           keyless_absent).
  intros name v f [H|[H|[]]]; injection H as <- <-; intros Hf;
    injection Hf as <-; reflexivity.
Defined.


(** ** The model on small inputs *)

(** The payload as the integration test writes it, over several lines. *)
Example decode_spaced_payload :
  Decode
    (json_text "
      [
        { 'key': 'loadMetric', 'value': 4, 'unit': 'Load' },
        { 'key': 'temperatureMetric', 'value': 99, 'unit': 'Temperature' }
      ]
    ") = Ok metricsParsed.
Proof. reflexivity. Qed.

(** The error the integration test expects for the output [invalid]:
    invalid character 'i' looking for beginning of value. *)
Example decode_invalid :
  Decode "invalid" = Err (SyntaxError "i" "looking for beginning of value").
Proof. reflexivity. Qed.

Example decode_nothing : Decode "  " = Err io_EOF.
Proof. reflexivity. Qed.

Example decode_cut_short :
  Decode (json_text "[{'key':'a'}") = Err io_ErrUnexpectedEOF.
Proof. reflexivity. Qed.

Example decode_null : Decode "null" = Ok [].
Proof. reflexivity. Qed.

Example decode_object :
  Decode "{}" = Err (UnmarshalTypeError "object" "metrics.Metrics").
Proof. reflexivity. Qed.

(** Field names match whatever the case of their letters; the last of two
    members for one field wins; [null] stores nothing. *)
Example decode_folded_names :
  Decode (json_text "[{'KEY':'a','Key':'b','unit':null,'Value':0.5}]") =
    Ok [mkMetric "b" (S754_finite false 4503599627370496 (-53)) ""].
Proof. reflexivity. Qed.

Example decode_out_of_range :
  Decode (json_text "[{'value':1e400}]") =
    Err (UnmarshalTypeError "number 1e400" "float64").
Proof. reflexivity. Qed.

(** Escapes are replaced and a code point is written as UTF-8. *)
Example scan_escapes :
  Scanner.readValue Scanner.reset (json_text "'a\u00e9\n\/' rest") =
    Scanner.Value
      (JString (String "a" (String "195" (String "169" (String "010" "/")))))
      " rest".
Proof. reflexivity. Qed.

Example scan_leading_zero :
  Scanner.readValue Scanner.reset "[01]" =
    Scanner.Invalid (SyntaxError "1" "after array element").
Proof. reflexivity. Qed.

(** 0.1 is 0x3FB999999999999A; 1e23 lies halfway between two floats and goes
    to the even one. *)
Example parse_tenth :
  Strconv.ParseFloat "0.1" = Some (S754_finite false 7205759403792794 (-56)).
Proof. reflexivity. Qed.

Example parse_1e23 :
  Strconv.ParseFloat "1e23" = Some (S754_finite false 5960464477539062 24).
Proof. reflexivity. Qed.

(** Every call takes one unit of time and the interval is 10: the second
    cycle begins 11 after the first has completed at 5. *)
Example schedule_timeline :
  map fst
    (trace
       (schedule (mkConfig "/bin/echo" [] 10) 1
          (mkEnv (fun _ => Ran (json_text "[{'key':'a','value':1,'unit':'u'}]") 0)
             (fun _ => None) (fun _ => 1%N))
          startup)) =
    [1; 2; 3; 4; 5; 16; 17; 18; 19; 20; 21]%Z.
Proof. reflexivity. Qed.

(** * Beyond the cycle: the command line, the start of [main], the loop *)

(** ** The command line *)

Lemma runCmd_args (prefix : list string) (args : list string) :
  fold_left (fun cmdArgs arg => cmdArgs ++ ["--metrics-cmd-arg"%string; arg])
    args prefix =
  prefix ++ flat_map (fun arg => ["--metrics-cmd-arg"%string; arg]) args.
Proof.
  revert prefix. induction args as [|a args IH]; intros prefix; cbn.
  - rewrite app_nil_r. reflexivity.
  - rewrite IH, <- app_assoc. reflexivity.
Qed.

Lemma parse_cmd_args (ParseDuration : string -> option Z)
    (args : list string) : forall v : Flag.vars,
  Flag.Parse ParseDuration v
    (flat_map (fun arg => ["--metrics-cmd-arg"%string; arg]) args) =
  Flag.Parsed
    (Flag.mkVars (Flag.origin v) (Flag.metronAddr v) (Flag.metricsInterval v)
       (Flag.metricsCmd v) (Flag.metricsCmdArgs v ++ args) (Flag.debug v))
    [].
Proof.
  induction args as [|a args IH]; intros v.
  - cbn. rewrite app_nil_r. destruct v; reflexivity.
  - cbn [flat_map app].
    change (Flag.Parse ParseDuration v
              ("--metrics-cmd-arg"%string :: a
               :: flat_map (fun arg => ["--metrics-cmd-arg"%string; arg]) args))
      with (match Flag.set ParseDuration Flag.fMetricsCmdArg a v with
            | Some v' =>
                Flag.Parse ParseDuration v'
                  (flat_map (fun arg => ["--metrics-cmd-arg"%string; arg]) args)
            | None => Flag.Failed (Flag.InvalidValue a "metrics-cmd-arg")
            end).
    unfold Flag.set, Flag.multiFlag_Set.
    rewrite IH. cbn [Flag.origin Flag.metronAddr Flag.metricsInterval
                     Flag.metricsCmd Flag.metricsCmdArgs Flag.debug].
    rewrite <- app_assoc.
    destruct (Flag.metricsCmdArgs v); reflexivity.
Qed.

(** X1.  Every [--metrics-cmd-arg] adds its value to the arguments of the
    metrics command: values given one after another come after those
    already there, in the order given, and none is refused, whatever the
    value is. *)
Theorem metrics_cmd_args_accumulate (ParseDuration : string -> option Z)
    (args : list string) (v : Flag.vars) :
  Flag.Parse ParseDuration v
    (flat_map (fun arg => ["--metrics-cmd-arg"%string; arg]) args) =
  Flag.Parsed
    (Flag.mkVars (Flag.origin v) (Flag.metronAddr v) (Flag.metricsInterval v)
       (Flag.metricsCmd v) (Flag.metricsCmdArgs v ++ args) (Flag.debug v))
    [].
Proof. exact (parse_cmd_args ParseDuration args v). Qed.

(** X2.  The argument list [runCmd] builds parses back to what it was built
    from: the origin, the address, the command, the debug switch, the
    interval the duration string stands for, and the command's arguments in
    their order; nothing is left over, whatever the strings are. *)
Theorem runCmd_parses_back (ParseDuration : string -> option Z)
    (origin metronAddress metricsInterval metricsCmd : string) (debugLog : bool)
    (metricsCmdArgs : list string) (d : Z) :
  ParseDuration metricsInterval = Some d ->
  Flag.Parse ParseDuration Flag.defaults
    (runCmd origin debugLog metronAddress metricsInterval metricsCmd
       metricsCmdArgs) =
  Flag.Parsed
    (Flag.mkVars origin metronAddress d metricsCmd metricsCmdArgs debugLog) [].
Proof.
  intros Hd. unfold runCmd. rewrite runCmd_args.
  destruct debugLog; cbn [app];
    cbn -[flat_map]; rewrite Hd; cbn -[flat_map];
    rewrite parse_cmd_args; reflexivity.
Qed.

(** [runCmd] at the interval of the integration suite. *)
Lemma runCmd_parses_back_witness :
  tenMilliseconds "10ms" = Some 10000000%Z /\
  Flag.Parse tenMilliseconds Flag.defaults
    (runCmd "p-service-origin" true "localhost:3777" "10ms" "/bin/echo"
       ["-n"%string; metricsJson]) =
  Flag.Parsed
    (Flag.mkVars "p-service-origin" "localhost:3777" 10000000 "/bin/echo"
       ["-n"%string; metricsJson] true) [].
Proof.
  split; [reflexivity|].
  apply (runCmd_parses_back tenMilliseconds). reflexivity.
Defined.

(** X3.  When the interval [runCmd] is given is no duration, parsing the
    flags fails at [--metrics-interval] with that value, whatever the other
    arguments are. *)
Theorem bad_interval_is_refused (ParseDuration : string -> option Z)
    (origin metronAddress metricsInterval metricsCmd : string) (debugLog : bool)
    (metricsCmdArgs : list string) :
  ParseDuration metricsInterval = None ->
  Flag.Parse ParseDuration Flag.defaults
    (runCmd origin debugLog metronAddress metricsInterval metricsCmd
       metricsCmdArgs) =
  Flag.Failed (Flag.InvalidValue metricsInterval "metrics-interval").
Proof.
  intros Hd. unfold runCmd. rewrite runCmd_args.
  destruct debugLog; cbn [app]; cbn -[flat_map]; rewrite Hd; reflexivity.
Qed.

Lemma bad_interval_is_refused_witness :
  tenMilliseconds "10x" = None /\
  Flag.Parse tenMilliseconds Flag.defaults
    (runCmd "p-service-origin" false "localhost:3777" "10x" "/bin/echo"
       ["-n"%string; metricsJson]) =
  Flag.Failed (Flag.InvalidValue "10x" "metrics-interval").
Proof.
  split; [reflexivity|].
  apply (bad_interval_is_refused tenMilliseconds). reflexivity.
Defined.

(** Flags that are not given keep what [main] declares for them: with the
    three required flags only, the interval is one minute, the command has
    no arguments and debug logging is off. *)
Example unset_flags_keep_defaults (ParseDuration : string -> option Z)
    (origin metronAddress metricsCmd : string) :
  Flag.Parse ParseDuration Flag.defaults
    ["--origin"%string; origin; "--metron-addr"%string; metronAddress;
     "--metrics-cmd"%string; metricsCmd] =
  Flag.Parsed
    (Flag.mkVars origin metronAddress 60000000000 metricsCmd [] false) [].
Proof. reflexivity. Qed.

(** ** Runs of composed computations *)

Lemma bind_outcome (A B : Type) (m : M A) (k : A -> M B) (E : env) (w : world) :
  outcomeOf (bind m k E w) =
  match outcomeOf (m E w) with
  | Returned a => outcomeOf (k a E (final (m E w)))
  | Exited code => Exited code
  end.
Proof.
  unfold bind. destruct (m E w) as [[a|code] w1 t1]; cbn; [|reflexivity].
  destruct (k a E w1); reflexivity.
Qed.

Lemma bind_trace (A B : Type) (m : M A) (k : A -> M B) (E : env) (w : world) :
  trace (bind m k E w) =
  trace (m E w) ++
  match outcomeOf (m E w) with
  | Returned a => trace (k a E (final (m E w)))
  | Exited _ => []
  end.
Proof.
  unfold bind. destruct (m E w) as [[a|code] w1 t1]; cbn.
  - destruct (k a E w1); reflexivity.
  - rewrite app_nil_r. reflexivity.
Qed.

Lemma events_bind (A B : Type) (m : M A) (k : A -> M B) (E : env) (w : world) :
  events (bind m k E w) =
  events (m E w) ++
  match outcomeOf (m E w) with
  | Returned a => events (k a E (final (m E w)))
  | Exited _ => []
  end.
Proof.
  unfold events. rewrite bind_trace, map_app.
  destruct (outcomeOf (m E w)); reflexivity.
Qed.

(** ** How a cycle ends *)

Lemma verdict_cases (r : commandResult) :
  verdict r = Returned tt \/ verdict r = Exited 0 \/ verdict r = Exited 1.
Proof.
  destruct r as [out st|out msg]; cbn; [|auto].
  destruct (st =? 0)%Z; [destruct (Decode out); auto|].
  destruct (st =? 10)%Z; auto.
Qed.

Lemma process_verdict (cfg : config) (E : env) (w : world) :
  outcomeOf (process cfg E w) = verdict (command E (runs w)).
Proof.
  destruct (command E (runs w)) as [out st|out msg] eqn:Hcmd; cbn [verdict].
  - destruct (Z.eqb_spec st 0) as [->|H0].
    + destruct (Decode out) as [ms|e] eqn:Hdec.
      * exact (proj1 (process_success cfg E w out ms Hcmd Hdec)).
      * exact (proj1 (process_parse_failure cfg E w out e Hcmd Hdec)).
    + destruct (Z.eqb_spec st 10) as [->|H10].
      * run_cycle. reflexivity.
      * run_cycle. reflexivity.
  - run_cycle. reflexivity.
Qed.

(** X4.  How a cycle ends is decided by what the command did and, after a
    zero exit, by whether its output decodes, and by nothing else: the cycle
    returns after status 10 and after a payload that decodes, ends the
    process with status 0 after any other non-zero status, and with status 1
    when the command could not be run or its output does not decode.
    Forwarding never changes the outcome, and no other status is ever
    used. *)
Theorem cycle_outcome_is_the_verdict (cfg : config) (E : env) (w : world) :
  outcomeOf (process cfg E w) = verdict (command E (runs w)) /\
  (outcomeOf (process cfg E w) = Returned tt \/
   outcomeOf (process cfg E w) = Exited 0 \/
   outcomeOf (process cfg E w) = Exited 1).
Proof.
  split; [exact (process_verdict cfg E w)|].
  rewrite process_verdict. apply verdict_cases.
Qed.

Lemma loop_outcome (cfg : config) (E : env) (n : nat) : forall w : world,
  outcomeOf (loop cfg n E w) = Returned tt \/
  outcomeOf (loop cfg n E w) = Exited 0 \/
  outcomeOf (loop cfg n E w) = Exited 1.
Proof.
  induction n as [|n IH]; intros w; cbn [loop].
  - left. reflexivity.
  - rewrite bind_outcome. cbn [time_After call outcomeOf final].
    rewrite bind_outcome, process_verdict.
    match goal with |- context [verdict ?r] =>
      destruct (verdict_cases r) as [H|[H|H]]; rewrite H end.
    + apply IH.
    + auto.
    + auto.
Qed.

Lemma schedule_outcome (cfg : config) (E : env) (n : nat) (w : world) :
  outcomeOf (schedule cfg n E w) = Returned tt \/
  outcomeOf (schedule cfg n E w) = Exited 0 \/
  outcomeOf (schedule cfg n E w) = Exited 1.
Proof.
  unfold schedule. rewrite bind_outcome, process_verdict.
  destruct (verdict_cases (command E (runs w))) as [H|[H|H]]; rewrite H.
  - apply loop_outcome.
  - auto.
  - auto.
Qed.

(** ** The start of [main] *)

Lemma firstMissing_None (v : Flag.vars) :
  firstMissing v = None ->
  String.eqb (Flag.origin v) "" = false /\
  String.eqb (Flag.metronAddr v) "" = false /\
  String.eqb (Flag.metricsCmd v) "" = false.
Proof.
  unfold firstMissing.
  destruct (String.eqb (Flag.origin v) ""); [discriminate|].
  destruct (String.eqb (Flag.metronAddr v) ""); [discriminate|].
  destruct (String.eqb (Flag.metricsCmd v) ""); [discriminate|].
  auto.
Qed.

Lemma missing_flag_stops_main_aux (v : Flag.vars) (initErr : option error)
    (n : nat) (E : env) (name : string) :
  firstMissing v = Some name ->
  main v initErr n E =
    ([FlagUsage; Fprintf Stderr (String "010" ("Must provide --" ++ name))],
     mkRun (Exited 1) startup []).
Proof.
  unfold firstMissing, main, andThen, assertFlag.
  destruct (String.eqb (Flag.origin v) "").
  { intros H. injection H as <-. reflexivity. }
  destruct (String.eqb (Flag.metronAddr v) "").
  { intros H. injection H as <-. reflexivity. }
  destruct (String.eqb (Flag.metricsCmd v) "").
  { intros H. injection H as <-. reflexivity. }
  discriminate.
Qed.

(** X5.  When one of origin, metron-addr and metrics-cmd is empty, [main]
    prints the usage and, on standard error, a new line and "Must provide
    --" with the name of the first of them that is empty, then ends the
    process with status 1: no sink is registered, dropsonde is not
    initialized, nothing is logged and no command is run. *)
Theorem missing_flag_stops_main (v : Flag.vars) (initErr : option error)
    (n : nat) (E : env) (name : string) :
  firstMissing v = Some name ->
  main v initErr n E =
    ([FlagUsage; Fprintf Stderr (String "010" ("Must provide --" ++ name))],
     mkRun (Exited 1) startup []).
Proof. exact (missing_flag_stops_main_aux v initErr n E name). Qed.

(** The suite's run with an empty metron address. *)
Lemma missing_flag_stops_main_witness :
  firstMissing
    (Flag.mkVars "p-service-origin" "" 10000000 "/bin/echo" [] false) =
    Some "metron-addr"%string /\
  main (Flag.mkVars "p-service-origin" "" 10000000 "/bin/echo" [] false)
    None 3 (always (Ran metricsJson 0)) =
    ([FlagUsage; Fprintf Stderr (String "010" "Must provide --metron-addr")],
     mkRun (Exited 1) startup []).
Proof.
  split; [reflexivity|].
  apply (missing_flag_stops_main _ None 3 (always (Ran metricsJson 0))
           "metron-addr"%string).
  reflexivity.
Defined.

(** X6.  With the three required flags given, [main] registers a sink on
    standard output (at DEBUG with [--debug], at INFO without) and one on
    standard error at ERROR, then initializes dropsonde with the metron
    address and the origin.  When that fails, the error is logged as
    "Dropsonde failed to initialize" and the process ends with status 1
    before any cycle: no command is run. *)
Theorem init_failure_stops_main (v : Flag.vars) (err : error) (n : nat)
    (E : env) :
  firstMissing v = None ->
  fst (main v (Some err) n E) =
    [RegisterSink Stdout (if Flag.debug v then DEBUG else INFO);
     RegisterSink Stderr ERROR;
     DropsondeInitialize (Flag.metronAddr v) (Flag.origin v)] /\
  outcomeOf (snd (main v (Some err) n E)) = Exited 1 /\
  events (snd (main v (Some err) n E)) =
    [Error "Dropsonde failed to initialize" err []; OsExit 1] /\
  commandsRun (events (snd (main v (Some err) n E))) = [].
Proof.
  intros H. destruct (firstMissing_None v H) as [Ho [Ha Hc]].
  unfold main, andThen, assertFlag. rewrite Ho, Ha, Hc.
  repeat split.
Qed.

Lemma init_failure_stops_main_witness :
  firstMissing
    (Flag.mkVars "p-service-origin" "localhost:3777" 10000000 "/bin/echo" []
       true) = None /\
  fst (main
         (Flag.mkVars "p-service-origin" "localhost:3777" 10000000 "/bin/echo"
            [] true)
         (Some (StartError "no such host")) 3 (always (Ran metricsJson 0))) =
    [RegisterSink Stdout DEBUG; RegisterSink Stderr ERROR;
     DropsondeInitialize "localhost:3777" "p-service-origin"] /\
  outcomeOf
    (snd (main
            (Flag.mkVars "p-service-origin" "localhost:3777" 10000000
               "/bin/echo" [] true)
            (Some (StartError "no such host")) 3 (always (Ran metricsJson 0))))
    = Exited 1.
Proof.
  destruct (init_failure_stops_main
              (Flag.mkVars "p-service-origin" "localhost:3777" 10000000
                 "/bin/echo" [] true)
              (StartError "no such host") 3 (always (Ran metricsJson 0))
              eq_refl) as [Hs [Ho _]].
  split; [reflexivity|]. split; [exact Hs | exact Ho].
Defined.

(** X7.  Once the flags are parsed, whatever their values, the surroundings
    and the number of rounds, [main] ends the process with status 0 or with
    status 1 only. *)
Theorem main_exits_with_0_or_1 (v : Flag.vars) (initErr : option error)
    (n : nat) (E : env) (code : Z) :
  outcomeOf (snd (main v initErr n E)) = Exited code ->
  code = 0%Z \/ code = 1%Z.
Proof.
  destruct (firstMissing v) as [name|] eqn:Hm.
  - rewrite (missing_flag_stops_main_aux v initErr n E name Hm). cbn.
    intros H. injection H as <-. auto.
  - destruct (firstMissing_None v Hm) as [Ho [Ha Hc]].
    unfold main, andThen, assertFlag. rewrite Ho, Ha, Hc.
    destruct initErr as [err|]; cbn [snd].
    + cbn. intros H. injection H as <-. auto.
    + destruct (schedule_outcome (Flag.configOf v) E n startup) as [H|[H|H]];
        rewrite H; intros H'; [discriminate | |]; injection H' as <-; auto.
Qed.

Lemma main_exits_with_0_or_1_witness :
  outcomeOf
    (snd (main
            (Flag.mkVars "p-service-origin" "localhost:3777" 10000000
               "/bin/bash" [] false)
            None 2 (always (Ran "failed to obtain metrics" 1)))) = Exited 0 /\
  (0 = 0 \/ 0 = 1)%Z.
Proof.
  split; [reflexivity|].
  apply (main_exits_with_0_or_1
           (Flag.mkVars "p-service-origin" "localhost:3777" 10000000
              "/bin/bash" [] false)
           None 2 (always (Ran "failed to obtain metrics" 1)) 0%Z).
  reflexivity.
Defined.

(** ** The programs a run starts *)

Lemma process_afterCommand (cfg : config) :
  process cfg =
  bind (call 0 start tt (fun w => w)) (fun _ =>
    bind (cmd_CombinedOutput (metricsCmd cfg) (metricsCmdArgs cfg))
      afterCommand).
Proof. reflexivity. Qed.

Section Calls.

Variable P : event -> Prop.
Hypothesis P_other : forall e : event, otherCall e -> P e.

Lemma forward_calls (ms : Metrics) : sound P (forward ms).
Proof.
  induction ms as [|m more IH]; cbn [forward].
  - apply sound_ret.
  - apply sound_bind.
    + intros E w. unfold dmetrics_SendValue.
      apply (sound_call P); [lia | apply P_other; exact I].
    + intros [err|]; (apply sound_bind; [|intros _; exact IH]).
      * apply sound_call; [lia | apply P_other; exact I].
      * apply sound_ret.
Qed.

Lemma afterCommand_calls (r : string * option error) : sound P (afterCommand r).
Proof.
  destruct r as [out [[| |c ctx|v tg|st|msg|msg]|]]; cbn [afterCommand];
    repeat first
      [ apply sound_bind; [|intro]
      | apply sound_exit; apply P_other; exact I
      | apply sound_call; [lia | apply P_other; exact I]
      | apply forward_calls
      | match goal with |- sound _ (if ?b then _ else _) => destruct b end
      | match goal with |- sound _ (match ?x with _ => _ end) =>
          destruct x end
      | intros E' w'; unfold decoder_Decode;
        apply (sound_call P); [lia | apply P_other; exact I] ].
Qed.

Variable cfg : config.
Hypothesis P_command : P (CombinedOutput (metricsCmd cfg) (metricsCmdArgs cfg)).

Lemma process_calls : sound P (process cfg).
Proof.
  rewrite process_afterCommand.
  apply sound_bind; [apply sound_call; [lia | apply P_other; exact I]|].
  intros _. apply sound_bind; [|exact afterCommand_calls].
  intros E w. unfold cmd_CombinedOutput.
  apply (sound_call P); [lia | exact P_command].
Qed.

Lemma loop_calls (n : nat) : sound P (loop cfg n).
Proof.
  induction n as [|n IH]; cbn [loop].
  - apply sound_ret.
  - apply sound_bind.
    + apply sound_call; [lia | apply P_other; exact I].
    + intros _. apply sound_bind; [exact process_calls | intros _; exact IH].
Qed.

Lemma schedule_calls (n : nat) : sound P (schedule cfg n).
Proof.
  unfold schedule.
  apply sound_bind; [exact process_calls | intros _; apply loop_calls].
Qed.

End Calls.

Lemma commandsRun_app (a b : list event) :
  commandsRun (a ++ b) = commandsRun a ++ commandsRun b.
Proof.
  induction a as [|e a IH]; [reflexivity|].
  destruct e; cbn; rewrite ?IH; reflexivity.
Qed.

Lemma commandsRun_other (tr : list (Z * event)) :
  Forall (fun x => otherCall (snd x)) tr -> commandsRun (map snd tr) = [].
Proof.
  induction 1 as [|[t e] tr He _ IH]; [reflexivity|].
  destruct e; cbn in He |- *; try exact IH. contradiction.
Qed.

Lemma commandsRun_configured (cfg : config) (tr : list (Z * event)) :
  Forall
    (fun x =>
       match snd x with
       | CombinedOutput name args =>
           (name, args) = (metricsCmd cfg, metricsCmdArgs cfg)
       | _ => True
       end) tr ->
  Forall (fun c => c = (metricsCmd cfg, metricsCmdArgs cfg))
    (commandsRun (map snd tr)).
Proof.
  induction 1 as [|[t e] tr He _ IH]; [constructor|].
  destruct e; cbn in He |- *; try exact IH. constructor; assumption.
Qed.

Lemma process_commandsRun (cfg : config) (E : env) (w : world) :
  commandsRun (events (process cfg E w)) =
    [(metricsCmd cfg, metricsCmdArgs cfg)].
Proof.
  unfold events. rewrite process_afterCommand, bind_trace.
  cbn [call outcomeOf final trace]. rewrite bind_trace.
  unfold cmd_CombinedOutput at 1 2 3. cbn [call outcomeOf final trace].
  rewrite !map_app, !commandsRun_app. cbn [map snd commandsRun app].
  rewrite commandsRun_other; [reflexivity|].
  match goal with |- Forall _ (trace (afterCommand ?r E ?w')) =>
    exact (proj1 (proj2 (afterCommand_calls otherCall (fun e H => H) r E w')))
  end.
Qed.

Lemma schedule_commandsRun (cfg : config) (E : env) (n : nat) (w : world) :
  Forall (fun c => c = (metricsCmd cfg, metricsCmdArgs cfg))
    (commandsRun (events (schedule cfg n E w))) /\
  hd_error (commandsRun (events (schedule cfg n E w))) =
    Some (metricsCmd cfg, metricsCmdArgs cfg).
Proof.
  split.
  - apply commandsRun_configured.
    refine (proj1 (proj2
      (schedule_calls
         (fun e => match e with
                   | CombinedOutput name args =>
                       (name, args) = (metricsCmd cfg, metricsCmdArgs cfg)
                   | _ => True
                   end) _ cfg _ n E w))).
    + intros e He. destruct e; try exact I. contradiction.
    + reflexivity.
  - unfold events, schedule. rewrite bind_trace, map_app, commandsRun_app.
    change (map snd (trace (process cfg E w))) with (events (process cfg E w)).
    rewrite process_commandsRun. reflexivity.
Qed.

(** X8.  Every cycle runs exactly one program, the configured metrics
    command with the configured arguments, however the cycle ends; and every
    program a run of the scheduler starts is that command with those
    arguments, the first of them in the first cycle. *)
Theorem only_the_metrics_command_is_run (cfg : config) (E : env) (w : world)
    (n : nat) :
  commandsRun (events (process cfg E w)) =
    [(metricsCmd cfg, metricsCmdArgs cfg)] /\
  Forall (fun c => c = (metricsCmd cfg, metricsCmdArgs cfg))
    (commandsRun (events (schedule cfg n E w))) /\
  hd_error (commandsRun (events (schedule cfg n E w))) =
    Some (metricsCmd cfg, metricsCmdArgs cfg).
Proof.
  split; [exact (process_commandsRun cfg E w)|].
  exact (schedule_commandsRun cfg E n w).
Qed.

Lemma eqb_nonempty (s : string) : s <> ""%string -> String.eqb s "" = false.
Proof. intros H. apply String.eqb_neq. exact H. Qed.

(** X9.  From the command line to the programs run: when [runCmd] is given
    a non-empty origin, address and command and an interval that is a
    duration, the flags parse, [main] gets past its checks, and every program
    it then starts is the given command with the given arguments, in their
    order; the first cycle starts it. *)
Theorem suite_runs_the_given_command (ParseDuration : string -> option Z)
    (origin metronAddress metricsInterval metricsCmd : string) (debugLog : bool)
    (metricsCmdArgs : list string) (d : Z) (n : nat) (E : env) :
  ParseDuration metricsInterval = Some d ->
  origin <> ""%string -> metronAddress <> ""%string -> metricsCmd <> ""%string ->
  exists v : Flag.vars,
    Flag.Parse ParseDuration Flag.defaults
      (runCmd origin debugLog metronAddress metricsInterval metricsCmd
         metricsCmdArgs) = Flag.Parsed v [] /\
    fst (main v None n E) =
      [RegisterSink Stdout (if debugLog then DEBUG else INFO);
       RegisterSink Stderr ERROR;
       DropsondeInitialize metronAddress origin] /\
    Forall (fun c => c = (metricsCmd, metricsCmdArgs))
      (commandsRun (events (snd (main v None n E)))) /\
    hd_error (commandsRun (events (snd (main v None n E)))) =
      Some (metricsCmd, metricsCmdArgs).
Proof.
  intros Hd Ho Ha Hc.
  exists (Flag.mkVars origin metronAddress d metricsCmd metricsCmdArgs debugLog).
  split.
  { unfold runCmd. rewrite runCmd_args.
    destruct debugLog; cbn [app];
      cbn -[flat_map]; rewrite Hd; cbn -[flat_map];
      rewrite parse_cmd_args; reflexivity. }
  unfold main, andThen, assertFlag.
  cbn [Flag.origin Flag.metronAddr Flag.metricsCmd Flag.debug].
  rewrite (eqb_nonempty _ Ho), (eqb_nonempty _ Ha), (eqb_nonempty _ Hc).
  cbn [fst snd app map sinks].
  split; [reflexivity|].
  exact (schedule_commandsRun
           (Flag.configOf
              (Flag.mkVars origin metronAddress d metricsCmd metricsCmdArgs
                 debugLog)) E n startup).
Qed.

Lemma suite_runs_the_given_command_witness :
  tenMilliseconds "10ms" = Some 10000000%Z /\
  "p-service-origin"%string <> ""%string /\
  "localhost:3777"%string <> ""%string /\
  "/bin/echo"%string <> ""%string /\
  exists v : Flag.vars,
    Flag.Parse tenMilliseconds Flag.defaults
      (runCmd "p-service-origin" false "localhost:3777" "10ms" "/bin/echo"
         ["-n"%string; metricsJson]) = Flag.Parsed v [] /\
    fst (main v None 2 (always (Ran metricsJson 0))) =
      [RegisterSink Stdout INFO; RegisterSink Stderr ERROR;
       DropsondeInitialize "localhost:3777" "p-service-origin"] /\
    Forall (fun c => c = ("/bin/echo"%string, ["-n"%string; metricsJson]))
      (commandsRun (events (snd (main v None 2 (always (Ran metricsJson 0)))))) /\
    hd_error
      (commandsRun (events (snd (main v None 2 (always (Ran metricsJson 0)))))) =
      Some ("/bin/echo"%string, ["-n"%string; metricsJson]).
Proof.
  split; [reflexivity|].
  split; [discriminate|]. split; [discriminate|]. split; [discriminate|].
  apply (suite_runs_the_given_command tenMilliseconds "p-service-origin"
           "localhost:3777" "10ms" "/bin/echo" false
           ["-n"%string; metricsJson] 10000000 2 (always (Ran metricsJson 0)));
    [reflexivity | discriminate | discriminate | discriminate].
Defined.

(** ** The run that ends *)

Lemma bind_final (A B : Type) (m : M A) (k : A -> M B) (E : env) (w : world) :
  final (bind m k E w) =
  match outcomeOf (m E w) with
  | Returned a => final (k a E (final (m E w)))
  | Exited _ => final (m E w)
  end.
Proof.
  unfold bind. destruct (m E w) as [[a|code] w1 t1]; cbn; [|reflexivity].
  destruct (k a E w1); reflexivity.
Qed.

(** Forwarding runs no command. *)
Lemma forward_runs (E : env) (ms : Metrics) : forall w : world,
  runs (final (forward ms E w)) = runs w.
Proof.
  induction ms as [|m more IH]; intros w; cbn [forward].
  - reflexivity.
  - rewrite bind_final. unfold dmetrics_SendValue.
    cbn [call outcomeOf final]. rewrite bind_final.
    destruct (sendResult E (sends w));
      cbn [logger_Error call ret outcomeOf final]; rewrite IH; reflexivity.
Qed.

Lemma afterCommand_runs (r : string * option error) (E : env) (w : world) :
  runs (final (afterCommand r E w)) = runs w.
Proof.
  destruct r as [out [[| |c ctx|v tg|st|msg|msg]|]]; cbn [afterCommand];
    try reflexivity.
  - destruct (st =? 10)%Z; reflexivity.
  - rewrite bind_final. cbn [logger_Info call outcomeOf final].
    rewrite bind_final. unfold decoder_Decode. cbn [call outcomeOf final].
    destruct (Decode out) as [ms|e]; [|reflexivity].
    rewrite forward_runs. reflexivity.
Qed.

(** A cycle runs the command once, however it ends. *)
Lemma process_runs (cfg : config) (E : env) (w : world) :
  runs (final (process cfg E w)) = S (runs w).
Proof.
  rewrite process_afterCommand, bind_final.
  cbn [logger_Info call outcomeOf final]. rewrite bind_final.
  unfold cmd_CombinedOutput at 1 2 3. cbn [call outcomeOf final].
  rewrite afterCommand_runs. reflexivity.
Qed.

Lemma first_run (E : env) (r k : nat) :
  (forall i, i < k -> verdict (command E (r + i)) = Returned tt) ->
  0 < k -> verdict (command E r) = Returned tt.
Proof.
  intros Hv Hk. rewrite <- (Nat.add_0_r r). exact (Hv 0 Hk).
Qed.

(** As long as the command's runs let the cycle return, the loop goes on. *)
Lemma loop_until (cfg : config) (E : env) (n : nat) : forall w : world,
  (forall i, i < n -> verdict (command E (runs w + i)) = Returned tt) ->
  outcomeOf (loop cfg n E w) = Returned tt /\
  length (commandsRun (events (loop cfg n E w))) = n.
Proof.
  induction n as [|n IH]; intros w Hv; cbn [loop].
  - split; reflexivity.
  - rewrite bind_outcome, events_bind.
    cbn [time_After call outcomeOf final].
    rewrite bind_outcome, events_bind, process_verdict. cbn [runs].
    rewrite (first_run E (runs w) (S n) Hv (Nat.lt_0_succ n)).
    match goal with |- context [loop cfg n E ?w2] =>
      destruct (IH w2) as [Ho Hl] end.
    { intros i Hi. rewrite process_runs. cbn [runs].
      rewrite Nat.add_succ_comm. apply Hv. apply -> Nat.succ_lt_mono.
      exact Hi. }
    split; [exact Ho|].
    rewrite !commandsRun_app, !length_app, process_commandsRun, Hl.
    reflexivity.
Qed.

(** The loop ends at the first run of the command that makes the cycle
    exit. *)
Lemma loop_first_failure (cfg : config) (E : env) (c : Z) (k : nat) :
  forall (n : nat) (w : world),
  (forall i, i < k -> verdict (command E (runs w + i)) = Returned tt) ->
  verdict (command E (runs w + k)) = Exited c ->
  k < n ->
  outcomeOf (loop cfg n E w) = Exited c /\
  length (commandsRun (events (loop cfg n E w))) = S k.
Proof.
  induction k as [|k IH]; intros [|n] w Hv Hc Hn; try (inversion Hn; fail);
    cbn [loop]; rewrite bind_outcome, events_bind;
    cbn [time_After call outcomeOf final];
    rewrite bind_outcome, events_bind, process_verdict; cbn [runs].
  - rewrite Nat.add_0_r in Hc. rewrite Hc. split; [reflexivity|].
    rewrite !commandsRun_app, !length_app, process_commandsRun.
    reflexivity.
  - rewrite (first_run E (runs w) (S k) Hv (Nat.lt_0_succ k)).
    match goal with |- context [loop cfg n E ?w2] =>
      destruct (IH n w2) as [Ho Hl] end.
    { intros i Hi. rewrite process_runs. cbn [runs].
      rewrite Nat.add_succ_comm. apply Hv. apply -> Nat.succ_lt_mono.
      exact Hi. }
    { rewrite process_runs. cbn [runs]. rewrite Nat.add_succ_comm. exact Hc. }
    { apply Nat.succ_lt_mono. exact Hn. }
    split; [exact Ho|].
    rewrite !commandsRun_app, !length_app, process_commandsRun, Hl.
    reflexivity.
Qed.

Lemma loop_stops (cfg : config) (E : env) (k j : nat) :
  forall (w : world) (code : Z),
  outcomeOf (loop cfg k E w) = Exited code ->
  loop cfg (k + j) E w = loop cfg k E w.
Proof.
  induction k as [|k IH]; intros w code H.
  - discriminate.
  - cbn [Nat.add loop] in H |- *. revert H.
    unfold bind, time_After, call. cbv beta iota zeta.
    destruct (process cfg E _) as [[u|c'] w2 t2]; [|reflexivity].
    destruct (loop cfg k E w2) as [o w3 t3] eqn:Hl.
    cbn [outcomeOf]. intros ->.
    rewrite (IH w2 code); [rewrite Hl; reflexivity|].
    rewrite Hl. reflexivity.
Qed.

Lemma schedule_stops (cfg : config) (E : env) (w : world) (k j : nat)
    (code : Z) :
  outcomeOf (schedule cfg k E w) = Exited code ->
  schedule cfg (k + j) E w = schedule cfg k E w.
Proof.
  unfold schedule, bind.
  destruct (process cfg E w) as [[u|c'] w2 t2]; [|reflexivity].
  destruct (loop cfg k E w2) as [o w3 t3] eqn:Hl.
  cbn [outcomeOf]. intros ->.
  rewrite (loop_stops cfg E k j w2 code); [rewrite Hl; reflexivity|].
  rewrite Hl. reflexivity.
Qed.

(** X11.  The run ends at the first run of the command that makes a cycle
    exit, and not before.  When the command's first [k] runs exit with 10
    or print a payload that decodes, and the next one fails so that the
    cycle's status is [c], then up to any round before [k] the process is
    still going, having run the command once per cycle; and up to any round
    from [k] on it has ended with status [c] after running the command
    [k + 1] times, and its calls are those made up to round [k]: no timer,
    command, log entry or metric follows the exit. *)
Theorem first_failure_ends_the_run (cfg : config) (E : env) (w : world)
    (k : nat) (c : Z) :
  (forall i, i < k -> verdict (command E (runs w + i)) = Returned tt) ->
  verdict (command E (runs w + k)) = Exited c ->
  (forall n, n < k ->
     outcomeOf (schedule cfg n E w) = Returned tt /\
     length (commandsRun (events (schedule cfg n E w))) = S n) /\
  (forall n, k <= n ->
     outcomeOf (schedule cfg n E w) = Exited c /\
     length (commandsRun (events (schedule cfg n E w))) = S k /\
     trace (schedule cfg n E w) = trace (schedule cfg k E w)).
Proof.
  intros Hv Hc.
  assert (Hshift : forall i, i < k - 1 ->
            verdict (command E (runs (final (process cfg E w)) + i)) =
            Returned tt).
  { intros i Hi. rewrite process_runs. cbn [Nat.add].
    rewrite <- Nat.add_succ_r. apply Hv. lia. }
  assert (Hat : forall n, k <= n ->
            outcomeOf (schedule cfg n E w) = Exited c /\
            length (commandsRun (events (schedule cfg n E w))) = S k).
  { intros n Hn. unfold schedule.
    rewrite bind_outcome, events_bind, process_verdict.
    destruct k as [|k'].
    - rewrite Nat.add_0_r in Hc. rewrite Hc. split; [reflexivity|].
      rewrite commandsRun_app, length_app, process_commandsRun. reflexivity.
    - rewrite (first_run E (runs w) (S k') Hv (Nat.lt_0_succ k')).
      destruct (loop_first_failure cfg E c k' n (final (process cfg E w)))
        as [Ho Hl].
      + intros i Hi. apply Hshift. lia.
      + rewrite process_runs. cbn [Nat.add]. rewrite <- Nat.add_succ_r.
        exact Hc.
      + lia.
      + split; [exact Ho|].
        rewrite commandsRun_app, length_app, process_commandsRun, Hl.
        reflexivity. }
  split.
  - intros n Hn. assert (Hn0 : 0 < k) by lia. unfold schedule.
    rewrite bind_outcome, events_bind, process_verdict.
    rewrite (first_run E (runs w) k Hv Hn0).
    destruct (loop_until cfg E n (final (process cfg E w))) as [Ho Hl].
    { intros i Hi. apply Hshift. lia. }
    split; [exact Ho|].
    rewrite commandsRun_app, length_app, process_commandsRun, Hl. reflexivity.
  - intros n Hn. destruct (Hat n Hn) as [Ho Hl].
    split; [exact Ho|]. split; [exact Hl|].
    replace n with (k + (n - k)) by lia.
    rewrite (schedule_stops cfg E w k (n - k) c); [reflexivity|].
    exact (proj1 (Hat k (Nat.le_refl k))).
Qed.

(** The command prints the payload twice and fails the third time: the
    process is going after one round, and from the second round on it has
    ended with status 0 after three runs of the command. *)
Lemma first_failure_ends_the_run_witness :
  (forall i, i < 2 ->
     verdict (command thirdRunFails (runs startup + i)) = Returned tt) /\
  verdict (command thirdRunFails (runs startup + 2)) = Exited 0 /\
  (outcomeOf (schedule echo 1 thirdRunFails startup) = Returned tt /\
   length (commandsRun (events (schedule echo 1 thirdRunFails startup))) = 2) /\
  (outcomeOf (schedule echo 5 thirdRunFails startup) = Exited 0 /\
   length (commandsRun (events (schedule echo 5 thirdRunFails startup))) = 3 /\
   trace (schedule echo 5 thirdRunFails startup) =
   trace (schedule echo 2 thirdRunFails startup)).
Proof.
  assert (Hv : forall i, i < 2 ->
             verdict (command thirdRunFails (runs startup + i)) = Returned tt).
  { intros [|[|i]] Hi; [reflexivity | reflexivity | lia]. }
  assert (Hc : verdict (command thirdRunFails (runs startup + 2)) = Exited 0)
    by reflexivity.
  split; [exact Hv|]. split; [exact Hc|].
  destruct (first_failure_ends_the_run echo thirdRunFails startup 2 0%Z Hv Hc)
    as [Hbefore Hafter].
  split; [apply Hbefore; lia | apply Hafter; lia].
Defined.

(** ** What is written where *)

(** X12.  Every entry the program logs is written to standard output, with
    or without [--debug]; an error entry is written to standard error as
    well and an informational entry is not.  The program logs at no level
    below INFO, so [--debug] changes nothing that is written. *)
Theorem debug_changes_no_output (debug : bool) (e : event) (l : LogLevel) :
  logLevel e = Some l ->
  writtenTo (sinks debug) l = writtenTo (sinks false) l /\
  writtenTo (sinks debug) l =
    match e with
    | Error _ _ _ => [Stdout; Stderr]
    | _ => [Stdout]
    end.
Proof.
  destruct e; cbn; intros H; try discriminate; injection H as <-;
    destruct debug; split; reflexivity.
Qed.

Lemma debug_changes_no_output_witness :
  logLevel (Error action (ExitError 1) []) = Some ERROR /\
  writtenTo (sinks true) ERROR = writtenTo (sinks false) ERROR /\
  writtenTo (sinks true) ERROR = [Stdout; Stderr].
Proof.
  split; [reflexivity|].
  apply (debug_changes_no_output true (Error action (ExitError 1) []) ERROR).
  reflexivity.
Defined.

(** ** More of what the decoder accepts *)

Lemma readValue_leading_space (ws s : string) :
  allSpace ws = true ->
  Scanner.readValue Scanner.reset (ws ++ s) = Scanner.readValue Scanner.reset s.
Proof.
  induction ws as [|c ws IH]; intros H; [reflexivity|].
  cbn [allSpace] in H. apply andb_prop in H. destruct H as [Hc Hws].
  cbn [append Scanner.readValue].
  unfold Scanner.stepByte, Scanner.reset at 1. cbn [Scanner.step Scanner.parseStack].
  unfold Scanner.beginValue. rewrite Hc. exact (IH Hws).
Qed.

Lemma nonSpace_leading_space (ws s : string) :
  allSpace ws = true -> Scanner.nonSpace (ws ++ s) = Scanner.nonSpace s.
Proof.
  induction ws as [|c ws IH]; intros H; [reflexivity|].
  cbn [allSpace] in H. apply andb_prop in H. destruct H as [Hc Hws].
  cbn [append Scanner.nonSpace]. rewrite Hc. exact (IH Hws).
Qed.

Lemma Decode_leading_space (ws s : string) :
  allSpace ws = true -> Decode (ws ++ s) = Decode s.
Proof.
  intros H. unfold Decode.
  rewrite (readValue_leading_space ws s H), (nonSpace_leading_space ws s H).
  reflexivity.
Qed.

(** X13.  Spaces, tabs, carriage returns and new lines before the payload
    change nothing: the output decodes as it does without them, to the same
    metrics or with the same error, and the cycle forwards the same
    metrics. *)
Theorem leading_space_is_skipped (cfg : config) (E : env) (w : world)
    (ws out : string) (ms : Metrics) :
  allSpace ws = true ->
  command E (runs w) = Ran (ws ++ out) 0 ->
  Decode out = Ok ms ->
  Decode (ws ++ out) = Decode out /\
  outcomeOf (process cfg E w) = Returned tt /\
  forwarded (events (process cfg E w)) = map triple ms.
Proof.
  intros Hws Hcmd Hdec.
  pose proof (Decode_leading_space ws out Hws) as Heq.
  split; [exact Heq|].
  rewrite Hdec in Heq.
  destruct (process_success cfg E w (ws ++ out) ms Hcmd Heq) as [Ho He].
  split; [exact Ho|].
  rewrite He, forwarded_app, forwarded_forwarding. reflexivity.
Qed.

(** The payload after a new line and two tabs, as the suite writes it. *)
Lemma leading_space_is_skipped_witness :
  allSpace (String "010" (String "009" (String "009" ""))) = true /\
  command
    (always
       (Ran (String "010" (String "009" (String "009" "")) ++ metricsJson) 0))
    (runs startup) =
    Ran (String "010" (String "009" (String "009" "")) ++ metricsJson) 0 /\
  Decode metricsJson = Ok metricsParsed /\
  Decode (String "010" (String "009" (String "009" "")) ++ metricsJson) =
    Decode metricsJson /\
  forwarded
    (events
       (process echo
          (always
             (Ran (String "010" (String "009" (String "009" "")) ++ metricsJson)
                0)) startup)) = map triple metricsParsed.
Proof.
  assert (Hws : allSpace (String "010" (String "009" (String "009" ""))) = true)
    by reflexivity.
  assert (Hdec : Decode metricsJson = Ok metricsParsed) by reflexivity.
  destruct (leading_space_is_skipped echo
              (always
                 (Ran (String "010" (String "009" (String "009" ""))
                       ++ metricsJson) 0))
              startup (String "010" (String "009" (String "009" "")))
              metricsJson metricsParsed Hws eq_refl Hdec) as [Hd [_ Hf]].
  split; [exact Hws|]. split; [reflexivity|]. split; [exact Hdec|].
  split; [exact Hd | exact Hf].
Defined.

(** A byte whose lower case is a given small letter is that letter or its
    capital. *)
Lemma lowerChar_letter (c d : ascii) :
  lowerChar c = d -> Char.between "a" "z" d = true ->
  c = d \/ c = ascii_of_N (Char.code d - 32).
Proof.
  intros <-.
  destruct c as [[] [] [] [] [] [] [] []]; vm_compute;
    first [discriminate | intros _; left; reflexivity
          | intros _; right; reflexivity].
Qed.

Ltac either_case H :=
  apply lowerChar_letter in H; [|reflexivity]; destruct H as [->| ->].

(** X14.  The names of the fields are matched whatever the case of their
    letters: a member of a record whose key is key, value or unit in any
    mix of capitals and small letters is stored into that field. *)
Theorem field_names_ignore_case (key name : string) (f : Unmarshal.field) :
  In (name, f) Unmarshal.fields -> lower key = name ->
  Unmarshal.findField Unmarshal.fields key None = Some f.
Proof.
  intros [H|[H|[H|[]]]]; injection H as <- <-; intros Hl.
  - destruct key as [|c1 [|c2 [|c3 [|c4 k]]]]; try discriminate.
    cbn in Hl. injection Hl as H1 H2 H3.
    either_case H1; either_case H2; either_case H3; reflexivity.
  - destruct key as [|c1 [|c2 [|c3 [|c4 [|c5 [|c6 k]]]]]]; try discriminate.
    cbn in Hl. injection Hl as H1 H2 H3 H4 H5.
    either_case H1; either_case H2; either_case H3; either_case H4;
      either_case H5; reflexivity.
  - destruct key as [|c1 [|c2 [|c3 [|c4 [|c5 k]]]]]; try discriminate.
    cbn in Hl. injection Hl as H1 H2 H3 H4.
    either_case H1; either_case H2; either_case H3; either_case H4;
      reflexivity.
Qed.

Lemma field_names_ignore_case_witness :
  In ("value"%string, Unmarshal.fieldValue) Unmarshal.fields /\
  lower "VaLuE" = "value"%string /\
  Unmarshal.findField Unmarshal.fields "VaLuE" None = Some Unmarshal.fieldValue.
Proof.
  assert (Hin : In ("value"%string, Unmarshal.fieldValue) Unmarshal.fields)
    by (right; left; reflexivity).
  split; [exact Hin|]. split; [reflexivity|].
  exact (field_names_ignore_case "VaLuE" "value" Unmarshal.fieldValue Hin
           eq_refl).
Defined.

(** X15.  When a record has several members for key or for unit, the last
    one counts: a record that decodes and ends with a string member for the
    field has that string in the field, whatever came before. *)
Theorem last_member_wins (before : list (string * json)) (key s : string)
    (f : Unmarshal.field) (m m' : Metric) :
  Unmarshal.findField Unmarshal.fields key None = Some f ->
  f <> Unmarshal.fieldValue ->
  Unmarshal.storeMembers m (before ++ [(key, JString s)]) = Ok m' ->
  Unmarshal.get f m' = inl s.
Proof.
  intros Hf Hnv. revert m.
  induction before as [|member before IH]; intros m H.
  - cbn [app Unmarshal.storeMembers] in H. unfold Unmarshal.storeMember in H.
    rewrite Hf in H.
    destruct f; [| contradiction |]; cbn in H; injection H as <-; reflexivity.
  - cbn [app Unmarshal.storeMembers] in H.
    destruct (Unmarshal.storeMember m member) as [m1|e]; [|discriminate].
    exact (IH m1 H).
Qed.

Lemma last_member_wins_witness :
  Unmarshal.findField Unmarshal.fields "Key" None = Some Unmarshal.fieldKey /\
  Unmarshal.fieldKey <> Unmarshal.fieldValue /\
  Unmarshal.storeMembers Unmarshal.zeroMetric
    ([("key"%string, JString "a"); ("unit"%string, JString "u")]
     ++ [("Key"%string, JString "b")]) = Ok (mkMetric "b" (S754_zero false) "u") /\
  Unmarshal.get Unmarshal.fieldKey (mkMetric "b" (S754_zero false) "u") =
    inl "b"%string.
Proof.
  assert (Hf : Unmarshal.findField Unmarshal.fields "Key" None =
               Some Unmarshal.fieldKey) by reflexivity.
  assert (Hn : Unmarshal.fieldKey <> Unmarshal.fieldValue) by discriminate.
  split; [exact Hf|]. split; [exact Hn|]. split; [reflexivity|].
  exact (last_member_wins
           [("key"%string, JString "a"); ("unit"%string, JString "u")]
           "Key" "b" Unmarshal.fieldKey Unmarshal.zeroMetric _ Hf Hn eq_refl).
Defined.

(** ** Runs that go on *)

Lemma loop_goes_on (cfg : config) (E : env) :
  (forall k, verdict (command E k) = Returned tt) ->
  forall (n : nat) (w : world),
    outcomeOf (loop cfg n E w) = Returned tt /\
    length (commandsRun (events (loop cfg n E w))) = n.
Proof.
  intros Hv. induction n as [|n IH]; intros w; cbn [loop].
  - split; reflexivity.
  - rewrite bind_outcome, events_bind.
    cbn [time_After call outcomeOf final].
    rewrite bind_outcome, events_bind, process_verdict, Hv.
    destruct (IH (final (process cfg E
                {| now := now w + Z.max 0 (metricsInterval cfg)
                          + Z.of_N (elapsed E (calls w));
                   calls := S (calls w); runs := runs w; sends := sends w |})))
      as [Ho Hl].
    split; [exact Ho|].
    rewrite !commandsRun_app, !length_app, process_commandsRun, Hl.
    reflexivity.
Qed.

(** X16.  The process goes on for as long as every run of the command
    either exits with 10 or exits with 0 and prints a payload that decodes:
    then no round ends it, and [n] rounds of the loop run the command
    [n + 1] times. *)
Theorem scheduler_goes_on (cfg : config) (E : env) (n : nat) (w : world) :
  (forall k, verdict (command E k) = Returned tt) ->
  outcomeOf (schedule cfg n E w) = Returned tt /\
  length (commandsRun (events (schedule cfg n E w))) = S n.
Proof.
  intros Hv. unfold schedule.
  rewrite bind_outcome, events_bind, process_verdict, Hv.
  destruct (loop_goes_on cfg E Hv n (final (process cfg E w))) as [Ho Hl].
  split; [exact Ho|].
  rewrite commandsRun_app, length_app, process_commandsRun, Hl. reflexivity.
Qed.

(** The command of the suite that exits with 10 every time. *)
Lemma scheduler_goes_on_witness :
  (forall k : nat,
     verdict (command (always (Ran "failed to obtain metrics" 10)) k) =
     Returned tt) /\
  outcomeOf
    (schedule (bash "echo -n failed to obtain metrics; exit 10") 5
       (always (Ran "failed to obtain metrics" 10)) startup) = Returned tt /\
  length
    (commandsRun
       (events
          (schedule (bash "echo -n failed to obtain metrics; exit 10") 5
             (always (Ran "failed to obtain metrics" 10)) startup))) = 6.
Proof.
  assert (Hv : forall k : nat,
             verdict (command (always (Ran "failed to obtain metrics" 10)) k) =
             Returned tt) by (intros k; reflexivity).
  split; [exact Hv|].
  exact (scheduler_goes_on (bash "echo -n failed to obtain metrics; exit 10")
           (always (Ran "failed to obtain metrics" 10)) 5 startup Hv).
Defined.

Lemma loop_emits (cfg : config) (E : env) (out : string) (ms : Metrics) :
  (forall k, command E k = Ran out 0) -> Decode out = Ok ms ->
  forall (n : nat) (w : world),
    outcomeOf (loop cfg n E w) = Returned tt /\
    forwarded (events (loop cfg n E w)) = concat (repeat (map triple ms) n).
Proof.
  intros Hcmd Hdec. induction n as [|n IH]; intros w; cbn [loop].
  - split; reflexivity.
  - rewrite bind_outcome, events_bind.
    cbn [time_After call outcomeOf final].
    rewrite bind_outcome, events_bind.
    match goal with |- context [process cfg E ?w1] =>
      destruct (process_success cfg E w1 out ms (Hcmd (runs w1)) Hdec)
        as [Ho He];
      destruct (IH (final (process cfg E w1))) as [Hlo Hlf]
    end.
    rewrite Ho. split; [exact Hlo|].
    rewrite !forwarded_app, He, forwarded_app, forwarded_forwarding, Hlf.
    reflexivity.
Qed.

(** X17.  The program emits the metrics again and again: when every run of
    the command exits with 0 and prints the same payload, the calls of
    [SendValue] up to round [n] are the payload's metrics, in order,
    [n + 1] times over, whether or not a call fails, and the process does
    not end. *)
Theorem metrics_are_emitted_every_round (cfg : config) (E : env) (out : string)
    (ms : Metrics) (n : nat) (w : world) :
  (forall k, command E k = Ran out 0) -> Decode out = Ok ms ->
  outcomeOf (schedule cfg n E w) = Returned tt /\
  forwarded (events (schedule cfg n E w)) =
    concat (repeat (map triple ms) (S n)).
Proof.
  intros Hcmd Hdec. unfold schedule.
  rewrite bind_outcome, events_bind.
  destruct (process_success cfg E w out ms (Hcmd (runs w)) Hdec) as [Ho He].
  destruct (loop_emits cfg E out ms Hcmd Hdec n (final (process cfg E w)))
    as [Hlo Hlf].
  rewrite Ho. split; [exact Hlo|].
  rewrite forwarded_app, He, forwarded_app, forwarded_forwarding, Hlf.
  reflexivity.
Qed.

Lemma metrics_are_emitted_every_round_witness :
  (forall k : nat, command firstSendFails k = Ran metricsJson 0) /\
  Decode metricsJson = Ok metricsParsed /\
  outcomeOf (schedule echo 2 firstSendFails startup) = Returned tt /\
  forwarded (events (schedule echo 2 firstSendFails startup)) =
    concat (repeat (map triple metricsParsed) 3).
Proof.
  assert (Hcmd : forall k : nat, command firstSendFails k = Ran metricsJson 0)
    by (intros k; reflexivity).
  assert (Hdec : Decode metricsJson = Ok metricsParsed) by reflexivity.
  split; [exact Hcmd|]. split; [exact Hdec|].
  exact (metrics_are_emitted_every_round echo firstSendFails metricsJson
           metricsParsed 2 startup Hcmd Hdec).
Defined.
